(** * Immuno-Warriors backend: start-up gate, retry loops and shutdown

    A shallow embedding of the lifecycle code of the backend:
    - [services/firebaseService.js]: [initializeFirebase], [retryConnect],
      [verifyConnection] (module [FirebaseService]);
    - [config/index.js]: the credential bundle read from the environment;
    - [app.js]: [healthCheck], [updateApiUrlInFirestore], the signal and
      fault listeners and [startServer] (module [App]).

    JavaScript code is embedded as a tree of effects ([Async]): synchronous
    effects, suspension points ([Await]), promises nobody awaits ([Fork]) and
    [process.exit].  Two interpreters give it meaning: [exec] runs one
    function to completion against a store whose answers depend on the time
    elapsed, and [Process.step] is the event loop of the whole process, where
    signals, faults and the completion of pending requests arrive one by
    one. *)

From Stdlib Require Import ZArith Lia Ascii.
From stdpp Require Import base strings list gmap pretty.

Set Warnings "-register-all".

(* ===================================================================== *)
(** ** JavaScript values *)
(* ===================================================================== *)

Module Js.

(** An error object carries its constructor name, [message] and [stack];
    [extra] holds the further own properties a subclass stores. *)
Inductive value : Type :=
| VUndefined
| VNull
| VBool (b : bool)
| VNum (n : Z)
| VStr (s : string)
| VArr (items : list value)
| VObj (props : list (string * value))
| VErr (e : error)
| VServerTimestamp   (* admin.firestore.FieldValue.serverTimestamp() *)
| VPromise           (* a promise object, only ever logged *)
with error : Type :=
| mkError (name message stack : string) (extra : list (string * value)).

Definition err_name (e : error) : string := let 'mkError n _ _ _ := e in n.
Definition err_message (e : error) : string := let 'mkError _ m _ _ := e in m.
Definition err_stack (e : error) : string := let 'mkError _ _ s _ := e in s.
Definition err_extra (e : error) : list (string * value) :=
  let 'mkError _ _ _ x := e in x.

(** The text the engine stores in [stack] when an error is constructed: the
    header line [Name: message]; the frames that follow it are not
    modelled. *)
Definition captureStack (name message : string) : string :=
  name +:+ ": " +:+ message.

(** [new Error(message)] *)
Definition new_Error (message : string) : error :=
  mkError "Error" message (captureStack "Error" message) [].

(** The [TypeError] the engine raises on [v.key] when [v] is [null] or
    [undefined]. *)
Definition new_TypeError (what key : string) : error :=
  let message :=
    "Cannot read properties of " +:+ what +:+ " (reading '" +:+ key +:+ "')" in
  mkError "TypeError" message (captureStack "TypeError" message) [].

(** [x.map is not a function] *)
Definition not_a_function (what : string) : error :=
  let message := what +:+ " is not a function" in
  mkError "TypeError" message (captureStack "TypeError" message) [].

(** Modelled from the spec: the class [AppError] of [utils/errorUtils] is not
    part of the sources.  The spec describes it as a typed failure carrying
    an HTTP-style status code, a human-readable message and the underlying
    cause; [new AppError(statusCode, message, details)] is an error whose
    [message] is the second argument and which stores the first and the
    third as [statusCode] and [details]. *)
Definition new_AppError (statusCode : Z) (message : string) (details : value)
  : error :=
  mkError "AppError" message (captureStack "AppError" message)
    [("statusCode", VNum statusCode); ("details", details)].

(** JavaScript truthiness. *)
Definition truthy (v : value) : bool :=
  match v with
  | VUndefined | VNull => false
  | VBool b => b
  | VNum n => negb (n =? 0)%Z
  | VStr s => negb (String.eqb s "")
  | _ => true
  end.

(** [a || b] *)
Definition js_or (a b : value) : value := if truthy a then a else b.

(** A value that may be absent, as [obj[key]] gives it. *)
Definition of_option (o : option string) : value :=
  match o with Some s => VStr s | None => VUndefined end.

Fixpoint assoc (k : string) (l : list (string * value)) : value :=
  match l with
  | [] => VUndefined
  | (k', v) :: l' => if String.eqb k k' then v else assoc k l'
  end.

(** [v.key]: [None] stands for the [TypeError] raised when [v] is [null] or
    [undefined]; a missing property reads as [undefined]. *)
Definition read_prop (v : value) (key : string) : option value :=
  match v with
  | VUndefined | VNull => None
  | VObj props => Some (assoc key props)
  | VErr e =>
      Some (if String.eqb key "message" then VStr (err_message e)
            else if String.eqb key "stack" then VStr (err_stack e)
            else if String.eqb key "name" then VStr (err_name e)
            else assoc key (err_extra e))
  | _ => Some VUndefined
  end.

Definition nullish_name (v : value) : string :=
  match v with VNull => "null" | _ => "undefined" end.

(** String interpolation [`${v}`] of the values this program interpolates:
    primitives; any other value prints as an object. *)
Definition to_str (v : value) : string :=
  match v with
  | VUndefined => "undefined"
  | VNull => "null"
  | VBool true => "true"
  | VBool false => "false"
  | VNum n => pretty n
  | VStr s => s
  | _ => "[object Object]"
  end.

(** [s.split(sep)] for a separator of one character: the pieces between
    the separators, empty pieces included; never the empty list. *)
Fixpoint split (sep : ascii) (s : string) : list string :=
  match s with
  | EmptyString => [EmptyString]
  | String c rest =>
      if Ascii.eqb c sep then EmptyString :: split sep rest
      else match split sep rest with
           | piece :: pieces => String c piece :: pieces
           | [] => [String c EmptyString]
           end
  end.

End Js.
Export Js.

(* ===================================================================== *)
(** ** Effects, requests and the tree of an asynchronous function *)
(* ===================================================================== *)

Inductive level : Type := Info | Warn | Error.

Definition meta : Type := list (string * value).

(** Synchronous effects, in the order the code performs them. *)
Inductive effect : Type :=
| Log (l : level) (message : string) (m : meta)
| SetShuttingDown                       (* isShuttingDown = true *)
| InitializeApp (serviceAccount : meta) (databaseURL : value)
| Firestore                             (* admin.firestore() *)
| Auth                                  (* admin.auth() *)
| Settings (options : meta)             (* db.settings(...) *)
| Listen (port : value) (host : string) (* app.listen(port, host, cb) *)
| OnSignalClose                         (* process.on(sig, () => server.close()) *)
| ServerClose.                          (* server.close() *)

(** Requests whose promise the code awaits: store calls, timers and the
    listener becoming ready. *)
Inductive call : Type :=
| DocSet (collection doc : string) (data : meta) (merge : bool)
| DocUpdate (collection doc : string) (data : meta)
| DocGet (collection doc : string)
| ListCollections
| Timeout (ms : Z)
| Listening.

(** The store client rejects with error objects. *)
Inductive outcome : Type :=
| Resolved (v : value)
| Rejected (e : error).

Inductive Async : Type :=
| Ret (v : value)                          (* return v / fall off the end *)
| Throw (v : value)                        (* throw v *)
| Do (e : effect) (k : Async)
| Await (c : call) (k : outcome -> Async)  (* suspension point *)
| Fork (child : Async) (k : Async)         (* async call that is not awaited *)
| Exit (code : Z).                         (* process.exit(code) *)

Fixpoint bind (t : Async) (f : value -> Async) : Async :=
  match t with
  | Ret v => f v
  | Throw v => Throw v
  | Do e k => Do e (bind k f)
  | Await c k => Await c (fun o => bind (k o) f)
  | Fork child k => Fork child (bind k f)
  | Exit code => Exit code
  end.

(** [try { t } catch (e) { h e }]: exceptions and rejected awaits of [t] reach
    [h]; a promise that [t] leaves un-awaited is outside the [try]. *)
Fixpoint try_catch (t : Async) (h : value -> Async) : Async :=
  match t with
  | Ret v => Ret v
  | Throw v => h v
  | Do e k => Do e (try_catch k h)
  | Await c k => Await c (fun o => try_catch (k o) h)
  | Fork child k => Fork child (try_catch k h)
  | Exit code => Exit code
  end.

Declare Scope async_scope.
Delimit Scope async_scope with async.
Bind Scope async_scope with Async.
Notation "'let*' x ':=' t 'in' k" := (bind t (fun x => k))
  (at level 10, x name, t at level 100, k at level 200,
   only parsing) : async_scope.
Notation "e ;; k" := (Do e k)
  (at level 100, k at level 200, right associativity,
   only parsing) : async_scope.
Open Scope async_scope.

(** [await p] for the promise of request [c]. *)
Definition await (c : call) : Async :=
  Await c (fun o =>
    match o with Resolved v => Ret v | Rejected e => Throw (VErr e) end).

(** [await new Promise(resolve => setTimeout(resolve, ms))] *)
Definition sleep (ms : Z) (k : Async) : Async :=
  Await (Timeout ms) (fun _ => k).

(** [v.key] *)
Definition prop (v : value) (key : string) : Async :=
  match read_prop v key with
  | Some x => Ret x
  | None => Throw (VErr (new_TypeError (nullish_name v) key))
  end.

(** [xs.map(x => x.key)] *)
Fixpoint map_prop_items (items : list value) (key : string)
  : list value + error :=
  match items with
  | [] => inl []
  | x :: rest =>
      match read_prop x key with
      | None => inr (new_TypeError (nullish_name x) key)
      | Some y =>
          match map_prop_items rest key with
          | inl ys => inl (y :: ys)
          | inr e => inr e
          end
      end
  end.

Definition map_prop (xs : value) (key : string) : Async :=
  match xs with
  | VArr items =>
      match map_prop_items items key with
      | inl ys => Ret (VArr ys)
      | inr e => Throw (VErr e)
      end
  | VUndefined | VNull => Throw (VErr (new_TypeError (nullish_name xs) "map"))
  | _ => Throw (VErr (not_a_function "collections.map"))
  end.

(* ===================================================================== *)
(** ** Running one function to completion *)
(* ===================================================================== *)

Inductive event : Type :=
| EDo (e : effect)
| ECall (c : call)          (* the request was issued *)
| EExit (code : Z).         (* process.exit was called *)

Inductive result : Type :=
| Returned (v : value)
| Thrown (v : value)
| Exited (code : Z).

Inductive status : Type :=
| Finished (r : result)
| Suspended (c : call) (k : outcome -> Async).

Record segment : Type := mkSegment {
  seg_trace : list event;
  seg_status : status;
  seg_spawned : list status
}.

(** The synchronous run of [t] up to its first suspension point.  A promise
    that is not awaited runs its own synchronous prefix at once and is then
    left to the event loop ([seg_spawned]). *)
Fixpoint start (t : Async) : segment :=
  match t with
  | Ret v => mkSegment [] (Finished (Returned v)) []
  | Throw v => mkSegment [] (Finished (Thrown v)) []
  | Exit code => mkSegment [EExit code] (Finished (Exited code)) []
  | Do e k =>
      let s := start k in
      mkSegment (EDo e :: seg_trace s) (seg_status s) (seg_spawned s)
  | Await c k => mkSegment [ECall c] (Suspended c k) []
  | Fork child k =>
      let s1 := start child in
      match seg_status s1 with
      | Finished (Exited code) =>
          mkSegment (seg_trace s1) (Finished (Exited code)) (seg_spawned s1)
      | st1 =>
          let s2 := start k in
          mkSegment (seg_trace s1 ++ seg_trace s2) (seg_status s2)
            (seg_spawned s1 ++ st1 :: seg_spawned s2)
      end
  end.

(** The store as the code sees it: the answer to a request may depend on
    the request and on the time, counted in elapsed timer waits. *)
Definition world : Type := nat -> call -> outcome.

Definition after (c : call) (now : nat) : nat :=
  match c with Timeout _ => S now | _ => now end.

Record execution : Type := mkExecution {
  trace : list event;
  final : result;
  finish : nat      (* the time at which the run ends *)
}.

Definition emit (tr : list event) (x : execution) : execution :=
  mkExecution (tr ++ trace x) (final x) (finish x).

(** [exec w now t]: the run of [t] from time [now] when every awaited
    request is answered by [w].  Of a promise that is not awaited only the
    synchronous prefix belongs to the run. *)
Fixpoint exec (w : world) (now : nat) (t : Async) : execution :=
  match t with
  | Ret v => mkExecution [] (Returned v) now
  | Throw v => mkExecution [] (Thrown v) now
  | Exit code => mkExecution [EExit code] (Exited code) now
  | Do e k => emit [EDo e] (exec w now k)
  | Await c k => emit [ECall c] (exec w (after c now) (k (w now c)))
  | Fork child k =>
      let s1 := start child in
      match seg_status s1 with
      | Finished (Exited code) => mkExecution (seg_trace s1) (Exited code) now
      | _ => emit (seg_trace s1) (exec w now k)
      end
  end.

(* ===================================================================== *)
(** ** config/index.js *)
(* ===================================================================== *)

Module Config.

(** [config.firebase] *)
Record firebase : Type := mkFirebase {
  projectId : value;
  clientEmail : value;
  privateKey : value;
  databaseURL : value
}.

(** [config.firebase[field]] *)
Definition field (c : firebase) (name : string) : value :=
  if String.eqb name "projectId" then projectId c
  else if String.eqb name "clientEmail" then clientEmail c
  else if String.eqb name "privateKey" then privateKey c
  else if String.eqb name "databaseURL" then databaseURL c
  else VUndefined.

(** [s.replace(/\\n/g, '\n')]: every backslash followed by [n] becomes a
    line feed. *)
Fixpoint unescape_newlines (s : string) : string :=
  match s with
  | String "\"%char (String "n"%char rest) =>
      String "010"%char (unescape_newlines rest)
  | String c rest => String c (unescape_newlines rest)
  | EmptyString => EmptyString
  end.

Definition getenv (env : gmap string string) (name : string) : value :=
  of_option (env !! name).

Definition firebase_of_env (env : gmap string string) : firebase :=
  {| projectId := getenv env "FIREBASE_PROJECT_ID";
     clientEmail := getenv env "FIREBASE_CLIENT_EMAIL";
     privateKey :=
       match env !! "FIREBASE_PRIVATE_KEY" with
       | Some s =>
           if truthy (VStr s) then VStr (unescape_newlines s) else VUndefined
       | None => VUndefined
       end;
     databaseURL := getenv env "FIREBASE_DATABASE_URL" |}.

(** [config.nodeEnv] *)
Definition nodeEnv (env : gmap string string) : value :=
  js_or (getenv env "NODE_ENV") (VStr "development").

(** [config.cors.allowedOrigins] *)
Definition allowedOrigins (env : gmap string string) : list string :=
  match env !! "CORS_ALLOWED_ORIGINS" with
  | Some s =>
      if truthy (VStr s) then split ","%char s
      else ["http://localhost:3000"; "https://immuno-warriors.com"]
  | None => ["http://localhost:3000"; "https://immuno-warriors.com"]
  end.

(** The environment variable each field of [config.firebase] is read
    from. *)
Definition variable_of (name : string) : string :=
  if String.eqb name "projectId" then "FIREBASE_PROJECT_ID"
  else if String.eqb name "clientEmail" then "FIREBASE_CLIENT_EMAIL"
  else if String.eqb name "privateKey" then "FIREBASE_PRIVATE_KEY"
  else if String.eqb name "databaseURL" then "FIREBASE_DATABASE_URL"
  else "".

End Config.

(* ===================================================================== *)
(** ** services/firebaseService.js *)
(* ===================================================================== *)

Module FirebaseService.

(** [verifyConnection()] *)
Definition verifyConnection : Async :=
  try_catch
    (let* _ := await (DocSet "status" "connection_test"
                        [("lastChecked", VServerTimestamp);
                         ("status", VStr "connected")] false) in
     Log Info "Connexion Firestore vérifiée" [] ;;
     Ret VUndefined)
    (fun error =>
       let* m := prop error "message" in
       let* s := prop error "stack" in
       Log Error "Échec de la vérification de la connexion Firestore"
         [("error", m); ("stack", s)] ;;
       let* cause := prop error "message" in
       Throw (VErr (new_AppError 500
                      "Impossible de se connecter à Firestore" cause))).

(** The loop of [retryConnect]: [n] iterations are left, the next one is
    numbered [attempt] ([retryConnect] enters it with [n = maxRetries] and
    [attempt = 1], so that [attempt = maxRetries - n + 1] throughout and
    [n = 0] is [attempt > maxRetries]). *)
Fixpoint retryConnect_loop (maxRetries delayMs : Z) (n : nat) (attempt : Z)
    (lastError : value) : Async :=
  match n with
  | O =>
      Log Error
        "Échec définitif de la connexion à Firestore après plusieurs tentatives"
        [] ;;
      Throw lastError
  | S n' =>
      try_catch
        (let* _ := verifyConnection in
         Log Info "Connexion Firebase vérifiée avec succès" [] ;;
         Ret (VBool true))
        (fun error =>
           let* m := prop error "message" in
           Log Warn
             ("Tentative de connexion Firestore échouée (" +:+ pretty attempt
                +:+ "/" +:+ pretty maxRetries +:+ ")")
             [("error", m)] ;;
           if (attempt <? maxRetries)%Z
           then sleep delayMs
                  (retryConnect_loop maxRetries delayMs n' (attempt + 1) error)
           else retryConnect_loop maxRetries delayMs n' (attempt + 1) error)
  end.

(** [retryConnect(maxRetries, delayMs)]: [for (attempt = 1; attempt <=
    maxRetries; attempt++)] runs [Z.to_nat maxRetries] times. *)
Definition retryConnect (maxRetries delayMs : Z) : Async :=
  retryConnect_loop maxRetries delayMs (Z.to_nat maxRetries) 1 VNull.

Definition requiredFields : list string :=
  ["projectId"; "clientEmail"; "privateKey"; "databaseURL"].

(** [requiredFields.filter(field => !config.firebase[field])] *)
Definition missingFields (config : Config.firebase) : list string :=
  List.filter (fun field => negb (truthy (Config.field config field)))
    requiredFields.

(** The message of the error thrown when fields are missing. *)
Definition incomplete_message (config : Config.firebase) : string :=
  "Configuration credentials Firebase incomplète : "
    +:+ String.concat ", " (missingFields config) +:+ " manquant(s)".

(** [initializeFirebase()], called by the constructor; [apps_length] is
    [admin.apps.length] at the call and [nodeEnv] is [config.nodeEnv]. *)
Definition initializeFirebase (config : Config.firebase) (nodeEnv : value)
    (apps_length : nat) : Async :=
  try_catch
    (Log Info "Firebase: Utilisation des credentials directes" [] ;;
     if (0 <? length (missingFields config))%nat then
       Throw (VErr (new_AppError 500 (incomplete_message config)
                      (VStr "Missing Firebase configuration fields")))
     else
       let serviceAccount :=
         [("project_id", Config.projectId config);
          ("client_email", Config.clientEmail config);
          ("private_key", Config.privateKey config)] in
       Log Info "Firebase: Credentials directes validées"
         [("projectId", Config.projectId config)] ;;
       let* _ :=
         (if (apps_length =? 0)%nat then
            InitializeApp serviceAccount (Config.databaseURL config) ;;
            Log Info "Firebase Admin SDK initialisé avec succès"
              [("projectId", Config.projectId config);
               ("environment", nodeEnv)] ;;
            Ret VUndefined
          else Ret VUndefined) in
       Firestore ;;
       Auth ;;
       Settings [("ignoreUndefinedProperties", VBool true)] ;;
       Fork (retryConnect 3 5000) (Ret VUndefined))
    (fun error =>
       let* m := prop error "message" in
       let* s := prop error "stack" in
       Log Error "Échec de l'initialisation de Firebase"
         [("error", m); ("stack", s)] ;;
       let* cause := prop error "message" in
       Throw (VErr (new_AppError 500
                      "Échec de l'initialisation de Firebase" cause))).


End FirebaseService.

(* ===================================================================== *)
(** ** app.js *)
(* ===================================================================== *)

Module App.

Import Config.

Section WithEnvironment.

(** [process.env], and the address of the first external IPv4 interface
    ([None] when the host has none). *)
Variable env : gmap string string.
Variable host_ip : option string.

Definition requiredEnvVars : list string :=
  ["PORT"; "JWT_SECRET"; "GEMINI_API_KEY"; "FIREBASE_PROJECT_ID"].

Definition missingVars : list string :=
  List.filter (fun varName => negb (truthy (getenv env varName)))
    requiredEnvVars.

(** [process.env.NODE_ENV || 'production'] *)
Definition environment : value :=
  js_or (getenv env "NODE_ENV") (VStr "production").

(** The body of the [try] of [healthCheck], for the attempt numbered
    [attempt]. *)
Definition healthCheck_attempt (attempt : Z) : Async :=
  Log Info "Starting health check" [("attempt", VNum attempt)] ;;
  if (0 <? length missingVars)%nat then
    Throw (VErr (new_Error ("Missing environment variables: "
                              +:+ String.concat ", " missingVars)))
  else
    Log Info "Environment variables check: OK" [] ;;
    let* _ := await (DocSet "status" "health_check"
                       [("lastChecked", VServerTimestamp);
                        ("status", VStr "healthy")] false) in
    Log Info "Firestore write test: OK" [] ;;
    let* collections := await ListCollections in
    let* ids := map_prop collections "id" in
    Log Info "Firestore connection: OK" [("collections", ids)] ;;
    Ret (VBool true).

(** The loop of [healthCheck]: [n] iterations are left, the next one is
    numbered [attempt] ([healthCheck] enters it with [n = maxRetries] and
    [attempt = 1], so that [attempt = maxRetries - n + 1] throughout and
    [n = 0] is [attempt > maxRetries]). *)
Fixpoint healthCheck_loop (maxRetries delayMs : Z) (n : nat) (attempt : Z)
    (lastError : value) : Async :=
  match n with
  | O =>
      let* m := prop lastError "message" in
      let* s := prop lastError "stack" in
      Log Error "Health check failed definitively"
        [("error", m); ("stack", s)] ;;
      Throw lastError
  | S n' =>
      try_catch (healthCheck_attempt attempt)
        (fun err =>
           let* m := prop err "message" in
           let* s := prop err "stack" in
           Log Warn
             ("Health check failed (attempt " +:+ pretty attempt +:+ "/"
                +:+ pretty maxRetries +:+ ")")
             [("error", m); ("stack", s)] ;;
           if (attempt <? maxRetries)%Z
           then sleep delayMs
                  (healthCheck_loop maxRetries delayMs n' (attempt + 1) err)
           else healthCheck_loop maxRetries delayMs n' (attempt + 1) err)
  end.

(** [healthCheck(maxRetries = 3, delayMs = 5000)]: [for (attempt = 1;
    attempt <= maxRetries; attempt++)] runs [Z.to_nat maxRetries] times. *)
Definition healthCheck (maxRetries delayMs : Z) : Async :=
  healthCheck_loop maxRetries delayMs (Z.to_nat maxRetries) 1 VNull.

(** [updateApiUrlInFirestore(url, status)] *)
Definition updateApiUrlInFirestore (url status : value) : Async :=
  try_catch
    (let* _ := await (DocSet "config" "api"
                        [("baseUrl", url);
                         ("status", status);
                         ("environment", environment);
                         ("lastUpdated", VServerTimestamp)] true) in
     Log Info ("API URL updated in Firestore: " +:+ to_str url)
       [("status", status)] ;;
     Ret VUndefined)
    (fun err =>
       let* m := prop err "message" in
       let* s := prop err "stack" in
       Log Error "Failed to update API URL in Firestore"
         [("error", m); ("stack", s)] ;;
       Ret VUndefined).

(** [process.env.RENDER_EXTERNAL_URL || `http://localhost:${process.env.PORT}`] *)
Definition shutdown_url : value :=
  js_or (getenv env "RENDER_EXTERNAL_URL")
    (VStr ("http://localhost:" +:+ to_str (getenv env "PORT"))).

(** The listeners of [SIGTERM] and [SIGINT] have the same body up to the
    name in the first log line; [isShuttingDown] is the flag as the listener
    finds it. *)
Definition on_signal (name : string) (isShuttingDown : bool) : Async :=
  if isShuttingDown then Ret VUndefined
  else
    SetShuttingDown ;;
    Log Info ("Received " +:+ name +:+ " signal. Shutting down server...") [] ;;
    let* _ :=
      try_catch
        (let* _ := await (DocUpdate "status" "api_status"
                            [("last_stopped", VServerTimestamp);
                             ("message", VStr "API stopped")]) in
         updateApiUrlInFirestore shutdown_url (VStr "stopped"))
        (fun err =>
           let* m := prop err "message" in
           Log Error "Error during Firestore shutdown" [("error", m)] ;;
           Ret VUndefined) in
    Exit 0.

Definition on_SIGTERM : bool -> Async := on_signal "SIGTERM".
Definition on_SIGINT : bool -> Async := on_signal "SIGINT".

(** [process.on('unhandledRejection', (reason, promise) => ...)] *)
Definition on_unhandledRejection (reason promise : value) : Async :=
  let* m := prop reason "message" in
  let* s := prop reason "stack" in
  Log Error "Unhandled Promise Rejection"
    [("reason", js_or m reason); ("stack", s); ("promise", promise)] ;;
  Ret VUndefined.

(** [process.on('uncaughtException', (err) => ...)] *)
Definition on_uncaughtException (err : value) (isShuttingDown : bool)
  : Async :=
  let* m := prop err "message" in
  let* s := prop err "stack" in
  Log Error "Uncaught Exception" [("error", m); ("stack", s)] ;;
  if negb isShuttingDown then Exit 1 else Ret VUndefined.

(** The callback handed to [app.listen]: it runs once the listener is
    ready. *)
Definition listen_callback (port ip : value) (localUrl : string) : Async :=
  Log Info ("Server started on port " +:+ to_str port)
    [("localUrl", VStr (localUrl +:+ "/api")); ("environment", environment)] ;;
  let apiUrl := js_or (getenv env "RENDER_EXTERNAL_URL") (VStr localUrl) in
  let* _ := updateApiUrlInFirestore apiUrl (VStr "active") in
  let* _ := await (DocSet "status" "api_status"
                     [("last_started", VServerTimestamp);
                      ("message", VStr "API started");
                      ("port", port);
                      ("environment", environment);
                      ("ip", ip);
                      ("apiUrl", apiUrl)] false) in
  Ret VUndefined.

(** [startServer()] *)
Definition startServer : Async :=
  try_catch
    (Log Info "Starting server..." [] ;;
     let* _ := healthCheck 3 5000 in
     let port := js_or (getenv env "PORT") (VNum 4000) in
     let ip := js_or (of_option host_ip) (VStr "0.0.0.0") in
     let localUrl := "http://" +:+ to_str ip +:+ ":" +:+ to_str port in
     Listen port "0.0.0.0" ;;
     Fork (Await Listening (fun _ => listen_callback port ip localUrl))
       (OnSignalClose ;;
        Ret VUndefined))
    (fun err =>
       let* m := prop err "message" in
       let* s := prop err "stack" in
       Log Error "Failed to start server" [("error", m); ("stack", s)] ;;
       Exit 1).

(** The path prefixes of the mounted route groups. *)
Definition routes : list string :=
  ["/api/auth"; "/api/user"; "/api/combat"; "/api/research"; "/api/gemini";
   "/api/base-virale"; "/api/pathogen"; "/api/antibody"; "/api/notification";
   "/api/memory"; "/api/inventory"; "/api/progression"; "/api/achievement";
   "/api/threat-test"; "/api/leaderboard"; "/api/multiplayer"; "/api/sync"].

(** [routes.forEach(...)]: the effect of mounting that is observed here is
    the log line. *)
Fixpoint mount (paths : list string) (k : Async) : Async :=
  match paths with
  | [] => k
  | path :: rest => Log Info ("Route mounted: " +:+ path) [] ;; mount rest k
  end.

(** The module body of [app.js] after its imports: mount the routes,
    register the listeners, call [startServer()] without awaiting it. *)
Definition main : Async :=
  mount routes (Fork startServer (Ret VUndefined)).

(** The [origin] option handed to [cors]:
    [process.env.CORS_ALLOWED_ORIGINS ? process.env.CORS_ALLOWED_ORIGINS.split(',') : '*'] *)
Definition cors_origin : value :=
  match env !! "CORS_ALLOWED_ORIGINS" with
  | Some s =>
      if truthy (VStr s) then VArr (map VStr (split ","%char s))
      else VStr "*"
  | None => VStr "*"
  end.

(** [res.status(code).json(body)]: the response a route handler sends is
    the value of its run. *)
Definition respond (code : Z) (body : meta) : Async :=
  Ret (VObj [("statusCode", VNum code); ("body", VObj body)]).

(** The handler of [GET /api/health]; [uptime] is [process.uptime()] and
    [timestamp] is [new Date().toISOString()] at the time of the answer. *)
Definition health_route (uptime timestamp : value) : Async :=
  try_catch
    (let* _ := await (DocGet "status" "health_check") in
     respond 200
       [("status", VStr "healthy"); ("uptime", uptime);
        ("timestamp", timestamp)])
    (fun err =>
       let* m := prop err "message" in
       Log Error "Health check failed" [("error", m)] ;;
       let* m' := prop err "message" in
       respond 500 [("status", VStr "unhealthy"); ("error", m')]).

End WithEnvironment.

End App.

(* ===================================================================== *)
(** ** The process: module load and the event loop *)
(* ===================================================================== *)

Module Process.

Inductive signal : Type := SIGTERM | SIGINT.

(** What the event loop is handed, one at a time. *)
Inductive input : Type :=
| Signal (s : signal)
| Settle (task : nat) (o : outcome)    (* the pending request of a task completes *)
| UncaughtException (err : value)      (* a callback threw outside any promise *)
| UnhandledRejection (reason : value). (* a promise nobody awaits rejected *)

(** [tasks] holds the promises in flight: a slot is [Some] while its
    function is suspended on a request and [None] once it has settled. *)
Record proc : Type := mkProc {
  isShuttingDown : bool;
  exit_code : option Z;
  history : list event;
  tasks : list (option (call * (outcome -> Async)));
  closes_on_signal : bool
}.

Definition sets_flag (e : event) : bool :=
  match e with EDo SetShuttingDown => true | _ => false end.

Definition registers_close (e : event) : bool :=
  match e with EDo OnSignalClose => true | _ => false end.

Definition alive (p : proc) : bool :=
  match exit_code p with None => true | Some _ => false end.

(** The events of a synchronous run, with the assignments they make to the
    module state. *)
Definition record (tr : list event) (p : proc) : proc :=
  {| isShuttingDown := isShuttingDown p || existsb sets_flag tr;
     exit_code := exit_code p;
     history := history p ++ tr;
     tasks := tasks p;
     closes_on_signal := closes_on_signal p || existsb registers_close tr |}.

Definition die (code : Z) (p : proc) : proc :=
  {| isShuttingDown := isShuttingDown p;
     exit_code := Some code;
     history := history p;
     tasks := tasks p;
     closes_on_signal := closes_on_signal p |}.

Definition with_tasks (ts : list (option (call * (outcome -> Async))))
    (p : proc) : proc :=
  {| isShuttingDown := isShuttingDown p;
     exit_code := exit_code p;
     history := history p;
     tasks := ts;
     closes_on_signal := closes_on_signal p |}.

Section WithEnvironment.

Variable env : gmap string string.
Variable host_ip : option string.

(** The ['uncaughtException'] listener runs synchronously.  When the listener
    itself throws, the runtime ends the process with code 7. *)
Definition fault (err : value) (p : proc) : proc :=
  if alive p then
    let s := start (App.on_uncaughtException err (isShuttingDown p)) in
    let p' := record (seg_trace s) p in
    match seg_status s with
    | Finished (Exited code) => die code p'
    | Finished (Thrown _) => die 7 p'
    | _ => p'
    end
  else p.

(** The ['unhandledRejection'] listener runs synchronously; what it throws
    is an uncaught exception. *)
Definition rejection (reason : value) (p : proc) : proc :=
  if alive p then
    let s := start (App.on_unhandledRejection reason VPromise) in
    let p' := record (seg_trace s) p in
    match seg_status s with
    | Finished (Exited code) => die code p'
    | Finished (Thrown v) => fault v p'
    | _ => p'
    end
  else p.

(** A promise that was started and is not awaited by anyone. *)
Definition park (st : status) (p : proc) : proc :=
  if alive p then
    match st with
    | Suspended c k => with_tasks (tasks p ++ [Some (c, k)]) p
    | Finished (Thrown v) => rejection v p
    | Finished (Returned _) => p
    | Finished (Exited code) => die code p
    end
  else p.

(** Take in the synchronous run [s] of the promise in slot [slot] ([None]
    for a promise that starts now). *)
Definition absorb (slot : option nat) (s : segment) (p : proc) : proc :=
  let p1 := record (seg_trace s) p in
  match seg_status s with
  | Finished (Exited code) => die code p1
  | st =>
      let p2 := fold_left (fun q child => park child q) (seg_spawned s) p1 in
      match slot with
      | None => park st p2
      | Some n =>
          match st with
          | Suspended c k => with_tasks (<[n := Some (c, k)]> (tasks p2)) p2
          | Finished (Thrown v) =>
              rejection v (with_tasks (<[n := None]> (tasks p2)) p2)
          | _ => with_tasks (<[n := None]> (tasks p2)) p2
          end
      end
  end.

Definition listener (s : signal) : bool -> Async :=
  match s with
  | SIGTERM => App.on_SIGTERM env
  | SIGINT => App.on_SIGINT env
  end.

(** One turn of the event loop.  Nothing runs after the process has
    ended.  On a signal the listener of [app.js] runs first, then the
    [server.close()] listener when [startServer] has registered it. *)
Definition step (p : proc) (i : input) : proc :=
  if alive p then
    match i with
    | Signal s =>
        let p1 := absorb None (start (listener s (isShuttingDown p))) p in
        if closes_on_signal p && alive p1
        then record [EDo ServerClose] p1 else p1
    | Settle n o =>
        match tasks p !! n with
        | Some (Some (c, k)) => absorb (Some n) (start (k o)) p
        | _ => p
        end
    | UncaughtException err => fault err p
    | UnhandledRejection reason => rejection reason p
    end
  else p.

Definition run (p : proc) (inputs : list input) : proc :=
  fold_left step inputs p.

Definition fresh : proc :=
  {| isShuttingDown := false; exit_code := None; history := [];
     tasks := []; closes_on_signal := false |}.

(** Loading the program: [require('./services/firebaseService')] constructs
    the service, then the body of [app.js] runs.  An exception of the
    constructor escapes before any listener is registered and ends the
    process with code 1. *)
Definition script : Async :=
  let* _ := FirebaseService.initializeFirebase
              (Config.firebase_of_env env) (Config.nodeEnv env) 0 in
  App.main env host_ip.

Definition boot : proc :=
  let s := start script in
  match seg_status s with
  | Finished (Thrown _) => die 1 (record (seg_trace s) fresh)
  | _ => absorb None s fresh
  end.

End WithEnvironment.

End Process.

(* ===================================================================== *)
(** ** Observations on traces *)
(* ===================================================================== *)

Definition count (f : event -> bool) (tr : list event) : nat :=
  length (List.filter f tr).

(** A store request on document [collection/doc] (a write or a read). *)
Definition targets (collection doc : string) (e : event) : bool :=
  match e with
  | ECall (DocSet c d _ _) | ECall (DocUpdate c d _) | ECall (DocGet c d) =>
      String.eqb c collection && String.eqb d doc
  | _ => false
  end.

(** A write to [collection/doc] whose payload has [status] equal to [s]. *)
Definition writes_status (collection doc s : string) (e : event) : bool :=
  match e with
  | ECall (DocSet c d data _) | ECall (DocUpdate c d data) =>
      String.eqb c collection && String.eqb d doc
      && match assoc "status" data with
         | VStr s' => String.eqb s' s
         | _ => false
         end
  | _ => false
  end.

(** Any request to the store (a network call). *)
Definition is_store_call (e : event) : bool :=
  match e with
  | ECall (Timeout _) | ECall Listening => false
  | ECall _ => true
  | _ => false
  end.

(** Construction of the store client. *)
Definition is_client_construction (e : event) : bool :=
  match e with
  | EDo (InitializeApp _ _) | EDo Firestore | EDo Auth | EDo (Settings _) => true
  | _ => false
  end.

Definition is_timeout (e : event) : bool :=
  match e with ECall (Timeout _) => true | _ => false end.

Definition is_delay (ms : Z) (e : event) : bool :=
  match e with ECall (Timeout d) => (d =? ms)%Z | _ => false end.

Definition is_exit (e : event) : bool :=
  match e with EExit _ => true | _ => false end.

Definition is_log (l : level) (message : string) (e : event) : bool :=
  match e with
  | EDo (Log l' m _) =>
      match l, l' with
      | Info, Info | Warn, Warn | Error, Error => String.eqb m message
      | _, _ => false
      end
  | _ => false
  end.

(** One invocation of the operation retried by [healthCheck]: each attempt
    opens with this log line. *)
Definition is_health_attempt : event -> bool :=
  is_log Info "Starting health check".

(** One invocation of the operation retried by [retryConnect]:
    [verifyConnection] issues this write. *)
Definition is_probe : event -> bool := targets "status" "connection_test".

(** [needle] occurs in [hay]. *)
Fixpoint occurs (needle hay : string) : bool :=
  String.prefix needle hay
  || match hay with
     | EmptyString => false
     | String _ rest => occurs needle rest
     end.

(** The request that opens the shutdown sequence: the update of
    [status/api_status]. *)
Definition is_stop_update (e : event) : bool :=
  match e with
  | ECall (DocUpdate c d _) => String.eqb c "status" && String.eqb d "api_status"
  | _ => false
  end.

(** [null] and [undefined]. *)
Definition nullish (v : value) : bool :=
  match v with VUndefined | VNull => true | _ => false end.

(** The events of [q] that came after those of [p]. *)
Definition since (p q : Process.proc) : list event :=
  drop (length (Process.history p)) (Process.history q).

(** A process in its steady state: it has not ended, shutdown has not begun
    and no promise of the start-up code is pending. *)
Definition running (p : Process.proc) : Prop :=
  Process.exit_code p = None /\
  Process.isShuttingDown p = false /\
  Forall (fun slot => slot = None) (Process.tasks p).

(** Signals and completions of pending requests. *)
Definition is_trigger_or_settle (i : Process.input) : bool :=
  match i with
  | Process.Signal _ | Process.Settle _ _ => true
  | _ => false
  end.

(** A piece of code that forks nothing, does not open a shutdown sequence
    and ends in [process.exit(0)] on each of its paths. *)
Inductive closing : Async -> Prop :=
| closing_exit : closing (Exit 0)
| closing_do e k : closing k -> closing (Do e k)
| closing_await c k :
    is_stop_update (ECall c) = false ->
    (forall o, closing (k o)) ->
    closing (Await c k).

(** The state of a process in which one shutdown sequence, begun after
    [p0], is under way or has ended the process. *)
Definition shutting_down (p0 q : Process.proc) : Prop :=
  exists tr,
    Process.history q = Process.history p0 ++ tr /\
    Process.isShuttingDown q = true /\
    count is_stop_update tr = 1%nat /\
    ((Process.exit_code q = None /\ count is_exit tr = 0%nat /\
      exists n c k,
        Process.tasks q !! n = Some (Some (c, k)) /\
        (forall o, closing (k o)) /\
        (forall m slot, m <> n -> Process.tasks q !! m = Some slot ->
                        slot = None))
     \/
     (Process.exit_code q = Some 0%Z /\ count is_exit tr = 1%nat)).

Definition is_listen (e : event) : bool :=
  match e with EDo (Listen _ _) => true | _ => false end.


(** A signal, a completion, or a fault whose value is not [null] or
    [undefined]. *)
Definition is_ordinary (i : Process.input) : bool :=
  match i with
  | Process.Signal _ | Process.Settle _ _ => true
  | Process.UncaughtException v | Process.UnhandledRejection v =>
      negb (nullish v)
  end.

(** [s] has no backslash. *)
Fixpoint no_backslash (s : string) : bool :=
  match s with
  | EmptyString => true
  | String c rest => negb (Ascii.eqb c "\"%char) && no_backslash rest
  end.

(** The character [c] occurs in [s]. *)
Fixpoint has_char (c : ascii) (s : string) : bool :=
  match s with
  | EmptyString => false
  | String d rest => Ascii.eqb d c || has_char c rest
  end.

(** The error [healthCheck] constructs when variables are missing. *)
Definition missing_env_error (env : gmap string string) : error :=
  new_Error ("Missing environment variables: "
               +:+ String.concat ", " (App.missingVars env)).

(* ===================================================================== *)
(** ** Concrete environments and stores *)
(* ===================================================================== *)

Module Sample.

(** Every variable the program reads is set. *)
Definition env_complete : gmap string string :=
  list_to_map
    [("PORT", "4000"); ("JWT_SECRET", "secret"); ("GEMINI_API_KEY", "key");
     ("FIREBASE_PROJECT_ID", "immuno"); ("FIREBASE_CLIENT_EMAIL", "a@b.c");
     ("FIREBASE_PRIVATE_KEY", "-----BEGIN-----\nk\n-----END-----");
     ("FIREBASE_DATABASE_URL", "https://immuno.example")].

(** [PORT] is not set. *)
Definition env_without_port : gmap string string :=
  delete "PORT" env_complete.

Definition unavailable : error := new_Error "14 UNAVAILABLE".

Definition answer_ok (c : call) : outcome :=
  match c with
  | ListCollections => Resolved (VArr [VObj [("id", VStr "status")]])
  | _ => Resolved VUndefined
  end.

(** The store answers every request. *)
Definition store_up : world := fun _ c => answer_ok c.

(** The store rejects every request. *)
Definition store_down : world := fun _ _ => Rejected unavailable.

(** The store rejects every request until [k] timer waits have elapsed. *)
Definition store_up_after (k : nat) : world :=
  fun now c => if (now <? k)%nat then Rejected unavailable else answer_ok c.

(** The update of [status/api_status] is rejected (the document does not
    exist), every other request is answered. *)
Definition store_without_api_status : world :=
  fun _ c =>
    match c with
    | DocUpdate _ _ _ => Rejected (new_Error "5 NOT_FOUND")
    | _ => answer_ok c
    end.

(** The credential bundle read when [FIREBASE_PROJECT_ID] and
    [FIREBASE_DATABASE_URL] are not set. *)
Definition config_incomplete : Config.firebase :=
  Config.firebase_of_env
    (delete "FIREBASE_PROJECT_ID" (delete "FIREBASE_DATABASE_URL" env_complete)).

Definition host_ip : option string := Some "10.0.0.5".

Definition done_ : outcome := Resolved VUndefined.
Definition refused : outcome := Rejected unavailable.

(** The process after a start-up in which every request is answered: the
    probe of [retryConnect] (task 0), the write and the listing of
    [healthCheck] (task 1), then the listener opens and its callback
    (task 2) publishes the URL and the start. *)
Definition started : Process.proc :=
  Process.run env_complete (Process.boot env_complete host_ip)
    [Process.Settle 0 done_;
     Process.Settle 1 done_;
     Process.Settle 1 (answer_ok ListCollections);
     Process.Settle 2 done_; Process.Settle 2 done_; Process.Settle 2 done_].

(** A start-up in which the store answers the requests of [healthCheck]
    and of the listener's callback, and rejects the three probes of
    [retryConnect] (task 0; between two probes its timer fires). *)
Definition probes_refused : list Process.input :=
  [Process.Settle 1 done_;
   Process.Settle 1 (answer_ok ListCollections);
   Process.Settle 2 done_; Process.Settle 2 done_; Process.Settle 2 done_;
   Process.Settle 0 refused; Process.Settle 0 done_;
   Process.Settle 0 refused; Process.Settle 0 done_;
   Process.Settle 0 refused].

End Sample.

(* ===================================================================== *)
(** ** Laws of the interpreters *)
(* ===================================================================== *)

Lemma emit_nil x : emit [] x = x.
Proof. by destruct x. Qed.

Lemma emit_emit a b x : emit a (emit b x) = emit (a ++ b) x.
Proof. unfold emit; simpl. by rewrite app_assoc. Qed.

(** Sequencing: the continuation runs from where the first part stopped. *)
Lemma exec_bind w now t f :
  exec w now (bind t f) =
  match final (exec w now t) with
  | Returned v =>
      emit (trace (exec w now t)) (exec w (finish (exec w now t)) (f v))
  | _ => exec w now t
  end.
Proof.
  revert now.
  induction t as [v|v|e k IH|c k IH|child _ k IH|code]; intros now; simpl.
  - by rewrite emit_nil.
  - done.
  - rewrite IH. destruct (final (exec w now k)); [|done..].
    by rewrite emit_emit.
  - rewrite IH. destruct (final (exec w _ (k _))); [|done..].
    by rewrite emit_emit.
  - destruct (seg_status (start child)) as [[]|]; simpl; try done;
      rewrite IH; destruct (final (exec w now k)); try done;
      by rewrite emit_emit.
  - done.
Qed.

(** [try]/[catch]: the handler runs from where the body threw. *)
Lemma exec_try_catch w now t h :
  exec w now (try_catch t h) =
  match final (exec w now t) with
  | Thrown v =>
      emit (trace (exec w now t)) (exec w (finish (exec w now t)) (h v))
  | _ => exec w now t
  end.
Proof.
  revert now.
  induction t as [v|v|e k IH|c k IH|child _ k IH|code]; intros now; simpl.
  - done.
  - by rewrite emit_nil.
  - rewrite IH. destruct (final (exec w now k)); [done| |done].
    by rewrite emit_emit.
  - rewrite IH. destruct (final (exec w _ (k _))); [done| |done].
    by rewrite emit_emit.
  - destruct (seg_status (start child)) as [[]|]; simpl; try done;
      rewrite IH; destruct (final (exec w now k)); try done;
      by rewrite emit_emit.
  - done.
Qed.

(** [exec] is [start] iterated: it runs the synchronous prefix, hands the
    pending request to the store and goes on with the answer. *)
Lemma exec_start w now t :
  exec w now t =
  match seg_status (start t) with
  | Finished r => mkExecution (seg_trace (start t)) r now
  | Suspended c k =>
      emit (seg_trace (start t)) (exec w (after c now) (k (w now c)))
  end.
Proof.
  revert now.
  induction t as [v|v|e k IH|c k IH|child _ k IH|code]; intros now; simpl;
    try done.
  - rewrite IH. destruct (seg_status (start k)); [done|].
    by rewrite emit_emit.
  - destruct (seg_status (start child)) as [[]|]; simpl; try done;
      rewrite IH; destruct (seg_status (start k)); try done;
      by rewrite emit_emit.
Qed.

Lemma prop_error_message e :
  prop (VErr e) "message" = Ret (VStr (err_message e)).
Proof. done. Qed.

Lemma prop_error_stack e :
  prop (VErr e) "stack" = Ret (VStr (err_stack e)).
Proof. done. Qed.

Lemma count_app f a b : count f (a ++ b) = (count f a + count f b)%nat.
Proof. unfold count. by rewrite List.filter_app, length_app. Qed.

Lemma count_cons f e tr :
  count f (e :: tr) = ((if f e then 1 else 0) + count f tr)%nat.
Proof. unfold count. simpl. by destruct (f e). Qed.

Lemma count_nil f : count f [] = 0%nat.
Proof. done. Qed.

(* ===================================================================== *)
(** ** The retry loops *)
(* ===================================================================== *)

Lemma count_delay_le d tr : (count (is_delay d) tr <= count is_timeout tr)%nat.
Proof.
  induction tr as [|e tr IH]; [done|].
  rewrite !count_cons.
  destruct e as [|c|]; simpl; try lia. destruct c; simpl; try lia.
  destruct (ms =? d)%Z; lia.
Qed.

Section RetryLoops.

Variable env : gmap string string.
Variable w : world.

(** One attempt of [healthCheck] takes no time of its own, opens with its
    log line, and either returns [true] or throws an error object. *)
Lemma healthCheck_attempt_run now a :
  let x := exec w now (App.healthCheck_attempt env a) in
  finish x = now /\
  count is_health_attempt (trace x) = 1%nat /\
  count is_timeout (trace x) = 0%nat /\
  (final x = Returned (VBool true) \/ exists e, final x = Thrown (VErr e)).
Proof.
  unfold App.healthCheck_attempt. simpl.
  destruct (0 <? length (App.missingVars env))%nat; simpl.
  { repeat split; eauto. }
  destruct (w now (DocSet _ _ _ _)) as [v|e]; simpl.
  2: { repeat split; eauto. }
  destruct (w now ListCollections) as [cs|e]; simpl.
  2: { repeat split; eauto. }
  unfold map_prop.
  destruct cs; simpl; try (repeat split; eauto).
  all: destruct (map_prop_items items "id"); simpl; repeat split; eauto.
Qed.

(** One call of [verifyConnection] issues its write once, takes no time of
    its own, and either returns or throws an error object. *)
Lemma verifyConnection_run now :
  let x := exec w now FirebaseService.verifyConnection in
  finish x = now /\
  count is_probe (trace x) = 1%nat /\
  count is_timeout (trace x) = 0%nat /\
  (final x = Returned VUndefined \/ exists e, final x = Thrown (VErr e)).
Proof.
  unfold FirebaseService.verifyConnection. simpl.
  destruct (w now (DocSet _ _ _ _)) as [v|e]; simpl; repeat split; eauto.
Qed.

(** [verifyConnection] fails exactly when its write is rejected, and then
    throws the store's error wrapped with status code 500. *)
Lemma verifyConnection_outcome now :
  final (exec w now FirebaseService.verifyConnection)
  = match w now (DocSet "status" "connection_test"
                   [("lastChecked", VServerTimestamp);
                    ("status", VStr "connected")] false) with
    | Resolved _ => Returned VUndefined
    | Rejected e =>
        Thrown (VErr (new_AppError 500
                        "Impossible de se connecter à Firestore"
                        (VStr (err_message e))))
    end.
Proof.
  unfold FirebaseService.verifyConnection. simpl.
  by destruct (w now (DocSet _ _ _ _)).
Qed.

(** An attempt of [healthCheck] whose write is rejected throws the store's
    error as it is. *)
Lemma healthCheck_attempt_write_rejected now a e :
  App.missingVars env = [] ->
  w now (DocSet "status" "health_check"
           [("lastChecked", VServerTimestamp); ("status", VStr "healthy")]
           false) = Rejected e ->
  final (exec w now (App.healthCheck_attempt env a)) = Thrown (VErr e).
Proof.
  intros Henv Hw. unfold App.healthCheck_attempt. rewrite Henv. simpl.
  by rewrite Hw.
Qed.

Variables N D : Z.

Local Opaque App.healthCheck_attempt FirebaseService.verifyConnection.

Lemma healthCheck_loop_fails n a now last :
  (1 <= n)%nat -> (a + Z.of_nat n - 1 = N)%Z ->
  (forall i, (i < n)%nat ->
     exists v, final (exec w (now + i)
                        (App.healthCheck_attempt env (a + Z.of_nat i)))
               = Thrown v) ->
  let x := exec w now (App.healthCheck_loop env N D n a last) in
  final x = final (exec w (now + n - 1) (App.healthCheck_attempt env N)) /\
  count is_health_attempt (trace x) = n /\
  count is_timeout (trace x) = (n - 1)%nat /\
  count (is_delay D) (trace x) = (n - 1)%nat /\
  finish x = (now + n - 1)%nat.
Proof.
  revert a now last.
  induction n as [|n IH]; intros a now last Hn Ha Hfail; [lia|].
  cbn [App.healthCheck_loop]. rewrite exec_try_catch.
  destruct (healthCheck_attempt_run now a) as (Hfin & Hc1 & Hc2 & Hres).
  pose proof (count_delay_le D
    (trace (exec w now (App.healthCheck_attempt env a)))) as Hc3.
  destruct (Hfail 0%nat) as [v Hv]; [lia|].
  rewrite Nat.add_0_r, Z.add_0_r in Hv.
  destruct Hres as [Hr|[e He]]; [congruence|].
  rewrite He, prop_error_message, prop_error_stack.
  cbn [bind exec]. rewrite Hfin.
  destruct n as [|n].
  - assert (a = N) by lia. subst a.
    rewrite Z.ltb_irrefl.
    cbn [App.healthCheck_loop].
    rewrite prop_error_message, prop_error_stack.
    cbn [bind exec emit trace final finish].
    rewrite Nat.add_sub, He.
    rewrite !count_app, !count_cons, !count_nil, Hc1, Hc2.
    cbn [is_health_attempt is_log is_timeout is_delay].
    repeat split; lia.
  - assert ((a <? N)%Z = true) as -> by (apply Z.ltb_lt; lia).
    unfold sleep. cbn [exec after].
    destruct (IH (a + 1)%Z (S now) (VErr e)) as (H1 & H2 & H3 & H4 & H5);
      [lia|lia| |].
    { intros i Hi. destruct (Hfail (S i)) as [v' Hv']; [lia|].
      exists v'. rewrite <- Hv'. f_equal. f_equal; [lia|f_equal; lia]. }
    cbn [emit trace final finish].
    rewrite !count_app, !count_cons, !count_nil, Hc1, Hc2, H2, H3, H4, H5, H1.
    cbn [is_health_attempt is_log is_timeout is_delay].
    rewrite Z.eqb_refl.
    repeat split; try lia.
    f_equal. f_equal. lia.
Qed.

Lemma healthCheck_loop_succeeds n k a now last :
  (k < n)%nat -> (a + Z.of_nat n - 1 = N)%Z ->
  (forall i, (i < k)%nat ->
     exists v, final (exec w (now + i)
                        (App.healthCheck_attempt env (a + Z.of_nat i)))
               = Thrown v) ->
  (exists r, final (exec w (now + k)
                      (App.healthCheck_attempt env (a + Z.of_nat k)))
             = Returned r) ->
  let x := exec w now (App.healthCheck_loop env N D n a last) in
  final x = Returned (VBool true) /\
  count is_health_attempt (trace x) = S k /\
  count is_timeout (trace x) = k /\
  count (is_delay D) (trace x) = k /\
  finish x = (now + k)%nat.
Proof.
  revert k a now last.
  induction n as [|n IH]; intros k a now last Hk Ha Hfail Hok; [lia|].
  cbn [App.healthCheck_loop]. rewrite exec_try_catch.
  destruct (healthCheck_attempt_run now a) as (Hfin & Hc1 & Hc2 & Hres).
  pose proof (count_delay_le D
    (trace (exec w now (App.healthCheck_attempt env a)))) as Hc3.
  destruct k as [|k].
  - destruct Hok as [r Hr]. rewrite Nat.add_0_r, Z.add_0_r in Hr.
    destruct Hres as [Hres|[e He]]; [|congruence].
    rewrite Hres. repeat split; try done; lia.
  - destruct (Hfail 0%nat) as [v Hv]; [lia|].
    rewrite Nat.add_0_r, Z.add_0_r in Hv.
    destruct Hres as [Hr|[e He]]; [congruence|].
    rewrite He, prop_error_message, prop_error_stack.
    cbn [bind exec]. rewrite Hfin.
    assert ((a <? N)%Z = true) as -> by (apply Z.ltb_lt; lia).
    unfold sleep. cbn [exec after].
    destruct (IH k (a + 1)%Z (S now) (VErr e)) as (H1 & H2 & H3 & H4 & H5);
      [lia|lia| | |].
    { intros i Hi. destruct (Hfail (S i)) as [v' Hv']; [lia|].
      exists v'. rewrite <- Hv'. f_equal. f_equal; [lia|f_equal; lia]. }
    { destruct Hok as [r Hr]. exists r. rewrite <- Hr.
      f_equal. f_equal; [lia|f_equal; lia]. }
    cbn [emit trace final finish].
    rewrite !count_app, !count_cons, !count_nil, Hc1, Hc2, H2, H3, H4, H5.
    cbn [is_health_attempt is_log is_timeout is_delay].
    rewrite Z.eqb_refl.
    repeat split; try done; lia.
Qed.

Lemma retryConnect_loop_fails n a now last :
  (1 <= n)%nat -> (a + Z.of_nat n - 1 = N)%Z ->
  (forall i, (i < n)%nat ->
     exists v, final (exec w (now + i) FirebaseService.verifyConnection)
               = Thrown v) ->
  let x := exec w now (FirebaseService.retryConnect_loop N D n a last) in
  final x = final (exec w (now + n - 1) FirebaseService.verifyConnection) /\
  count is_probe (trace x) = n /\
  count is_timeout (trace x) = (n - 1)%nat /\
  count (is_delay D) (trace x) = (n - 1)%nat /\
  finish x = (now + n - 1)%nat.
Proof.
  revert a now last.
  induction n as [|n IH]; intros a now last Hn Ha Hfail; [lia|].
  cbn [FirebaseService.retryConnect_loop].
  rewrite exec_try_catch, exec_bind.
  destruct (verifyConnection_run now) as (Hfin & Hc1 & Hc2 & Hres).
  pose proof (count_delay_le D
    (trace (exec w now FirebaseService.verifyConnection))) as Hc3.
  destruct (Hfail 0%nat) as [v Hv]; [lia|].
  rewrite Nat.add_0_r in Hv.
  destruct Hres as [Hr|[e He]]; [congruence|].
  rewrite He. cbv iota. rewrite He, prop_error_message.
  cbn [bind exec]. rewrite Hfin.
  destruct n as [|n].
  - assert (a = N) by lia. subst a.
    rewrite Z.ltb_irrefl.
    cbn [FirebaseService.retryConnect_loop exec emit trace final finish].
    rewrite Nat.add_sub, He.
    rewrite !count_app, !count_cons, !count_nil, Hc1, Hc2.
    cbn [is_probe targets is_timeout is_delay].
    repeat split; lia.
  - assert ((a <? N)%Z = true) as -> by (apply Z.ltb_lt; lia).
    unfold sleep. cbn [exec after].
    destruct (IH (a + 1)%Z (S now) (VErr e)) as (H1 & H2 & H3 & H4 & H5);
      [lia|lia| |].
    { intros i Hi. destruct (Hfail (S i)) as [v' Hv']; [lia|].
      exists v'. rewrite <- Hv'. f_equal. f_equal. lia. }
    cbn [emit trace final finish].
    rewrite !count_app, !count_cons, !count_nil, Hc1, Hc2, H2, H3, H4, H5, H1.
    cbn [is_probe targets is_timeout is_delay].
    rewrite Z.eqb_refl.
    repeat split; try lia.
    f_equal. f_equal. lia.
Qed.

Lemma retryConnect_loop_succeeds n k a now last :
  (k < n)%nat -> (a + Z.of_nat n - 1 = N)%Z ->
  (forall i, (i < k)%nat ->
     exists v, final (exec w (now + i) FirebaseService.verifyConnection)
               = Thrown v) ->
  (exists r, final (exec w (now + k) FirebaseService.verifyConnection)
             = Returned r) ->
  let x := exec w now (FirebaseService.retryConnect_loop N D n a last) in
  final x = Returned (VBool true) /\
  count is_probe (trace x) = S k /\
  count is_timeout (trace x) = k /\
  count (is_delay D) (trace x) = k /\
  finish x = (now + k)%nat.
Proof.
  revert k a now last.
  induction n as [|n IH]; intros k a now last Hk Ha Hfail Hok; [lia|].
  cbn [FirebaseService.retryConnect_loop].
  rewrite exec_try_catch, exec_bind.
  destruct (verifyConnection_run now) as (Hfin & Hc1 & Hc2 & Hres).
  pose proof (count_delay_le D
    (trace (exec w now FirebaseService.verifyConnection))) as Hc3.
  destruct k as [|k].
  - destruct Hok as [r Hr]. rewrite Nat.add_0_r in Hr.
    destruct Hres as [Hres|[e He]]; [|congruence].
    rewrite Hres. cbn [exec emit trace final finish]. rewrite Hfin.
    rewrite !count_app, !count_cons, !count_nil, Hc1, Hc2.
    cbn [is_probe targets is_timeout is_delay].
    repeat split; try done; lia.
  - destruct (Hfail 0%nat) as [v Hv]; [lia|].
    rewrite Nat.add_0_r in Hv.
    destruct Hres as [Hr|[e He]]; [congruence|].
    rewrite He. cbv iota. rewrite He, prop_error_message.
    cbn [bind exec]. rewrite Hfin.
    assert ((a <? N)%Z = true) as -> by (apply Z.ltb_lt; lia).
    unfold sleep. cbn [exec after].
    destruct (IH k (a + 1)%Z (S now) (VErr e)) as (H1 & H2 & H3 & H4 & H5);
      [lia|lia| | |].
    { intros i Hi. destruct (Hfail (S i)) as [v' Hv']; [lia|].
      exists v'. rewrite <- Hv'. f_equal. f_equal. lia. }
    { destruct Hok as [r Hr]. exists r. rewrite <- Hr.
      f_equal. f_equal. lia. }
    cbn [emit trace final finish].
    rewrite !count_app, !count_cons, !count_nil, Hc1, Hc2, H2, H3, H4, H5.
    cbn [is_probe targets is_timeout is_delay].
    rewrite Z.eqb_refl.
    repeat split; try done; lia.
Qed.

End RetryLoops.

(* ===================================================================== *)
(** ** Retry policy: exhaustion, success after failures, degenerate bound *)
(* ===================================================================== *)

(** C5. For every [N >= 1] and delay [D], when the retried operation fails at
    each of its [N] invocations, [healthCheck(N, D)] and [retryConnect(N, D)]
    invoke it exactly [N] times, wait exactly [N - 1] times, each time for
    [D] ms, and then fail with what the last invocation threw. *)
Theorem retry_exhausted_fails_with_last_error
    (env : gmap string string) (w : world) (now : nat) (N D : Z) :
  (1 <= N)%Z ->
  ((forall i, (i < Z.to_nat N)%nat ->
      exists v, final (exec w (now + i)
                         (App.healthCheck_attempt env (1 + Z.of_nat i)))
                = Thrown v) ->
   let x := exec w now (App.healthCheck env N D) in
   (exists e, final x = Thrown (VErr e)) /\
   final x = final (exec w (now + Z.to_nat N - 1)
                      (App.healthCheck_attempt env N)) /\
   count is_health_attempt (trace x) = Z.to_nat N /\
   count (is_delay D) (trace x) = (Z.to_nat N - 1)%nat /\
   count is_timeout (trace x) = (Z.to_nat N - 1)%nat)
  /\
  ((forall i, (i < Z.to_nat N)%nat ->
      exists v, final (exec w (now + i) FirebaseService.verifyConnection)
                = Thrown v) ->
   let x := exec w now (FirebaseService.retryConnect N D) in
   (exists e, final x = Thrown (VErr e)) /\
   final x = final (exec w (now + Z.to_nat N - 1)
                      FirebaseService.verifyConnection) /\
   count is_probe (trace x) = Z.to_nat N /\
   count (is_delay D) (trace x) = (Z.to_nat N - 1)%nat /\
   count is_timeout (trace x) = (Z.to_nat N - 1)%nat).
Proof.
  intros HN. split; intros Hfail x.
  - destruct (healthCheck_loop_fails env w N D (Z.to_nat N) 1 now VNull)
      as (H1 & H2 & H3 & H4 & _); [lia|lia|done|].
    fold (App.healthCheck env N D) in H1, H2, H3, H4. fold x in H1, H2, H3, H4.
    repeat split; try done.
    destruct (Hfail (Z.to_nat N - 1)%nat) as [v Hv]; [lia|].
    destruct (healthCheck_attempt_run env w (now + Z.to_nat N - 1) N)
      as (_ & _ & _ & [Hr|[e He]]).
    + replace (now + (Z.to_nat N - 1))%nat with (now + Z.to_nat N - 1)%nat
        in Hv by lia.
      replace (1 + Z.of_nat (Z.to_nat N - 1))%Z with N in Hv by lia.
      congruence.
    + exists e. by rewrite H1.
  - destruct (retryConnect_loop_fails w N D (Z.to_nat N) 1 now VNull)
      as (H1 & H2 & H3 & H4 & _); [lia|lia|done|].
    fold (FirebaseService.retryConnect N D) in H1, H2, H3, H4.
    fold x in H1, H2, H3, H4.
    repeat split; try done.
    destruct (Hfail (Z.to_nat N - 1)%nat) as [v Hv]; [lia|].
    destruct (verifyConnection_run w (now + Z.to_nat N - 1))
      as (_ & _ & _ & [Hr|[e He]]).
    + replace (now + (Z.to_nat N - 1))%nat with (now + Z.to_nat N - 1)%nat
        in Hv by lia.
      congruence.
    + exists e. by rewrite H1.
Qed.

Lemma retry_exhausted_witness :
  (1 <= 3)%Z /\
  (let x := exec Sample.store_down 0
              (App.healthCheck Sample.env_complete 3 5000) in
   (exists e, final x = Thrown (VErr e)) /\
   final x = final (exec Sample.store_down (0 + Z.to_nat 3 - 1)
                      (App.healthCheck_attempt Sample.env_complete 3)) /\
   count is_health_attempt (trace x) = Z.to_nat 3 /\
   count (is_delay 5000) (trace x) = (Z.to_nat 3 - 1)%nat /\
   count is_timeout (trace x) = (Z.to_nat 3 - 1)%nat) /\
  (let x := exec Sample.store_down 0 (FirebaseService.retryConnect 3 5000) in
   (exists e, final x = Thrown (VErr e)) /\
   final x = final (exec Sample.store_down (0 + Z.to_nat 3 - 1)
                      FirebaseService.verifyConnection) /\
   count is_probe (trace x) = Z.to_nat 3 /\
   count (is_delay 5000) (trace x) = (Z.to_nat 3 - 1)%nat /\
   count is_timeout (trace x) = (Z.to_nat 3 - 1)%nat).
Proof.
  split; [lia|].
  destruct (retry_exhausted_fails_with_last_error
              Sample.env_complete Sample.store_down 0 3 5000) as [H1 H2];
    [lia|].
  split; [apply H1|apply H2]; intros i Hi;
    do 3 (destruct i as [|i]; [eexists; vm_compute; reflexivity|]);
    simpl in Hi; lia.
Defined.

(** C6. For every [N >= 1], delay [D] and [k < N], when the retried operation
    fails at its first [k] invocations and succeeds at the next one,
    [healthCheck(N, D)] and [retryConnect(N, D)] return [true] after exactly
    [k + 1] invocations and exactly [k] waits, each of [D] ms. *)
Theorem retry_succeeds_after_k_failures
    (env : gmap string string) (w : world) (now : nat) (N D : Z) (k : nat) :
  (1 <= N)%Z -> (Z.of_nat k < N)%Z ->
  ((forall i, (i < k)%nat ->
      exists v, final (exec w (now + i)
                         (App.healthCheck_attempt env (1 + Z.of_nat i)))
                = Thrown v) ->
   (exists r, final (exec w (now + k)
                       (App.healthCheck_attempt env (1 + Z.of_nat k)))
              = Returned r) ->
   let x := exec w now (App.healthCheck env N D) in
   final x = Returned (VBool true) /\
   count is_health_attempt (trace x) = S k /\
   count (is_delay D) (trace x) = k /\
   count is_timeout (trace x) = k)
  /\
  ((forall i, (i < k)%nat ->
      exists v, final (exec w (now + i) FirebaseService.verifyConnection)
                = Thrown v) ->
   (exists r, final (exec w (now + k) FirebaseService.verifyConnection)
              = Returned r) ->
   let x := exec w now (FirebaseService.retryConnect N D) in
   final x = Returned (VBool true) /\
   count is_probe (trace x) = S k /\
   count (is_delay D) (trace x) = k /\
   count is_timeout (trace x) = k).
Proof.
  intros HN Hk. split; intros Hfail Hok x.
  - destruct (healthCheck_loop_succeeds env w N D (Z.to_nat N) k 1 now VNull)
      as (H1 & H2 & H3 & H4 & _); [lia|lia|done|done|].
    done.
  - destruct (retryConnect_loop_succeeds w N D (Z.to_nat N) k 1 now VNull)
      as (H1 & H2 & H3 & H4 & _); [lia|lia|done|done|].
    done.
Qed.

Lemma retry_succeeds_witness :
  (1 <= 3)%Z /\ (Z.of_nat 2 < 3)%Z /\
  (let x := exec (Sample.store_up_after 2) 0
              (App.healthCheck Sample.env_complete 3 5000) in
   final x = Returned (VBool true) /\
   count is_health_attempt (trace x) = 3%nat /\
   count (is_delay 5000) (trace x) = 2%nat /\
   count is_timeout (trace x) = 2%nat) /\
  (let x := exec (Sample.store_up_after 2) 0
              (FirebaseService.retryConnect 3 5000) in
   final x = Returned (VBool true) /\
   count is_probe (trace x) = 3%nat /\
   count (is_delay 5000) (trace x) = 2%nat /\
   count is_timeout (trace x) = 2%nat).
Proof.
  split; [lia|]. split; [lia|].
  destruct (retry_succeeds_after_k_failures
              Sample.env_complete (Sample.store_up_after 2) 0 3 5000 2)
    as [H1 H2]; [lia|lia|].
  split; [apply H1|apply H2];
    try (intros i Hi;
         do 2 (destruct i as [|i]; [eexists; vm_compute; reflexivity|]);
         simpl in Hi; lia);
    eexists; vm_compute; reflexivity.
Defined.

(** C9. With [maxRetries < 1] the body of the loop never runs: no attempt is
    logged and no request is issued.  [healthCheck] then neither returns
    [true] nor rethrows an error of the operation: it throws the [TypeError]
    of reading [message] of the [lastError] that is still [null].
    [retryConnect] logs its final failure and throws that [null]. *)
Theorem retry_loops_need_positive_bound
    (env : gmap string string) (w : world) (now : nat) (N D : Z) :
  (N < 1)%Z ->
  exec w now (App.healthCheck env N D)
  = mkExecution [] (Thrown (VErr (new_TypeError "null" "message"))) now
  /\
  exec w now (FirebaseService.retryConnect N D)
  = mkExecution
      [EDo (Log Error
         "Échec définitif de la connexion à Firestore après plusieurs tentatives"
         [])]
      (Thrown VNull) now.
Proof.
  intros HN.
  unfold App.healthCheck, FirebaseService.retryConnect.
  replace (Z.to_nat N) with 0%nat by lia.
  split; reflexivity.
Qed.

Lemma retry_loops_need_positive_bound_witness :
  (0 < 1)%Z /\
  exec Sample.store_up 0 (App.healthCheck Sample.env_complete 0 5000)
  = mkExecution [] (Thrown (VErr (new_TypeError "null" "message"))) 0
  /\
  exec Sample.store_up 0 (FirebaseService.retryConnect 0 5000)
  = mkExecution
      [EDo (Log Error
         "Échec définitif de la connexion à Firestore après plusieurs tentatives"
         [])]
      (Thrown VNull) 0.
Proof.
  split; [lia|].
  apply (retry_loops_need_positive_bound
           Sample.env_complete Sample.store_up 0 0 5000); lia.
Defined.

(* ===================================================================== *)
(** ** Missing environment variables *)
(* ===================================================================== *)

Section MissingEnvironment.

Variable env : gmap string string.
Hypothesis Hmissing : App.missingVars env <> [].

(** With a variable missing an attempt stops at the check: it logs its
    opening line and throws, before any request. *)
Lemma healthCheck_attempt_missing w now a :
  exec w now (App.healthCheck_attempt env a)
  = mkExecution [EDo (Log Info "Starting health check" [("attempt", VNum a)])]
      (Thrown (VErr (missing_env_error env))) now.
Proof.
  unfold App.healthCheck_attempt, missing_env_error.
  destruct (App.missingVars env) eqn:E; [done|].
  reflexivity.
Qed.

Lemma healthCheck_loop_missing_no_store_call w N D n a now e :
  count is_store_call
    (trace (exec w now (App.healthCheck_loop env N D n a (VErr e)))) = 0%nat.
Proof.
  revert a now e. induction n as [|n IH]; intros a now e.
  - reflexivity.
  - cbn [App.healthCheck_loop].
    rewrite exec_try_catch, healthCheck_attempt_missing.
    cbn [final trace finish].
    rewrite prop_error_message, prop_error_stack.
    cbn [bind exec emit trace].
    destruct (a <? N)%Z; unfold sleep; cbn [exec emit trace];
      rewrite !count_app, !count_cons, !count_nil, IH; reflexivity.
Qed.

End MissingEnvironment.

(** C2, as the code has it.  When a required environment variable is absent
    each attempt of [healthCheck] fails at the check, before any request to
    the store, with the error that lists the missing variables; that error
    goes through the retry loop like any other: for [maxRetries >= 1] there
    are [maxRetries] attempts and [maxRetries - 1] waits of [delayMs] before
    it is rethrown. *)
Theorem healthCheck_missing_env_goes_through_retry
    (env : gmap string string) (w : world) (now : nat) (N D : Z) :
  (1 <= N)%Z ->
  App.missingVars env <> [] ->
  let x := exec w now (App.healthCheck env N D) in
  final x = Thrown (VErr (missing_env_error env)) /\
  (forall name, In name App.requiredEnvVars ->
     env !! name = None -> In name (App.missingVars env)) /\
  count is_store_call (trace x) = 0%nat /\
  count is_health_attempt (trace x) = Z.to_nat N /\
  count (is_delay D) (trace x) = (Z.to_nat N - 1)%nat /\
  count is_timeout (trace x) = (Z.to_nat N - 1)%nat.
Proof.
  intros HN Hmissing x.
  destruct (healthCheck_loop_fails env w N D (Z.to_nat N) 1 now VNull)
    as (H1 & H2 & H3 & H4 & _); [lia|lia| |].
  { intros i _. rewrite healthCheck_attempt_missing by done. eauto. }
  rewrite healthCheck_attempt_missing in H1 by done.
  repeat split; try done.
  - intros name Hin Hnone. unfold App.missingVars.
    apply List.filter_In. split; [done|].
    unfold Config.getenv. by rewrite Hnone.
  - subst x. unfold App.healthCheck.
    destruct (Z.to_nat N) as [|n] eqn:E; [lia|].
    cbn [App.healthCheck_loop].
    rewrite exec_try_catch, healthCheck_attempt_missing by done.
    cbn [final trace finish].
    rewrite prop_error_message, prop_error_stack.
    cbn [bind exec emit trace].
    destruct (1 <? N)%Z; unfold sleep; cbn [exec emit trace];
      rewrite !count_app, !count_cons, !count_nil,
        healthCheck_loop_missing_no_store_call by done;
      reflexivity.
Qed.

Lemma healthCheck_missing_env_witness :
  (1 <= 3)%Z /\
  App.missingVars Sample.env_without_port <> [] /\
  let x := exec Sample.store_up 0
             (App.healthCheck Sample.env_without_port 3 5000) in
  final x = Thrown (VErr (missing_env_error Sample.env_without_port)) /\
  (forall name, In name App.requiredEnvVars ->
     Sample.env_without_port !! name = None ->
     In name (App.missingVars Sample.env_without_port)) /\
  count is_store_call (trace x) = 0%nat /\
  count is_health_attempt (trace x) = Z.to_nat 3 /\
  count (is_delay 5000) (trace x) = (Z.to_nat 3 - 1)%nat /\
  count is_timeout (trace x) = (Z.to_nat 3 - 1)%nat.
Proof.
  split; [lia|]. split; [vm_compute; discriminate|].
  apply (healthCheck_missing_env_goes_through_retry
           Sample.env_without_port Sample.store_up 0 3 5000);
    [lia|vm_compute; discriminate].
Defined.

(** C2 as stated fails: with [PORT] unset and the default arguments,
    [healthCheck] makes three attempts and waits twice, not one attempt
    and no wait. *)
Lemma healthCheck_missing_env_is_retried :
  let x := exec Sample.store_up 0
             (App.healthCheck Sample.env_without_port 3 5000) in
  Sample.env_without_port !! "PORT" = None /\
  count is_health_attempt (trace x) = 3%nat /\
  count (is_delay 5000) (trace x) = 2%nat /\
  ~ (count is_health_attempt (trace x) = 1%nat /\
     count is_timeout (trace x) = 0%nat).
Proof.
  vm_compute. repeat split. intros [H _]. discriminate H.
Qed.

(* ===================================================================== *)
(** ** The signal listeners, run on their own *)
(* ===================================================================== *)

(** What the listener publishes on shutdown. *)
Lemma shutdown_run env w now s :
  let update := DocUpdate "status" "api_status"
                  [("last_stopped", VServerTimestamp);
                   ("message", VStr "API stopped")] in
  let publish := DocSet "config" "api"
                   [("baseUrl", App.shutdown_url env);
                    ("status", VStr "stopped");
                    ("environment", App.environment env);
                    ("lastUpdated", VServerTimestamp)] true in
  let x := exec w now (Process.listener env s false) in
  exists greeting,
    final x = Exited 0 /\ finish x = now /\
    match w now update with
    | Rejected e =>
        trace x = [EDo SetShuttingDown; EDo (Log Info greeting []);
                   ECall update;
                   EDo (Log Error "Error during Firestore shutdown"
                          [("error", VStr (err_message e))]);
                   EExit 0]
    | Resolved _ =>
        exists outcome_log,
          trace x = [EDo SetShuttingDown; EDo (Log Info greeting []);
                     ECall update; ECall publish; EDo outcome_log; EExit 0]
    end.
Proof.
  intros update publish x. subst x.
  destruct s; simpl;
    (destruct (w now update) as [v|e] eqn:E; subst update; rewrite E; simpl;
     [destruct (w now publish) as [v'|e'] eqn:E'; subst publish; rewrite E';
      simpl|]); eauto 10.
Qed.

(** C3, as the code has it.  On [SIGTERM] or [SIGINT] received while running,
    [status/api_status] receives one update, carrying [last_stopped] and
    [message = "API stopped"] and no [status] field; when that update
    succeeds [config/api] receives a merge write with [status = "stopped"];
    and in every case the listener ends in [process.exit(0)]. *)
Theorem shutdown_publishes_stopped_and_exits
    (env : gmap string string) (w : world) (now : nat) (s : Process.signal) :
  let update := DocUpdate "status" "api_status"
                  [("last_stopped", VServerTimestamp);
                   ("message", VStr "API stopped")] in
  let publish := DocSet "config" "api"
                   [("baseUrl", App.shutdown_url env);
                    ("status", VStr "stopped");
                    ("environment", App.environment env);
                    ("lastUpdated", VServerTimestamp)] true in
  let x := exec w now (Process.listener env s false) in
  In (ECall update) (trace x) /\
  count (targets "status" "api_status") (trace x) = 1%nat /\
  existsb (writes_status "status" "api_status" "stopped") (trace x) = false /\
  ((exists v, w now update = Resolved v) ->
     In (ECall publish) (trace x) /\
     existsb (writes_status "config" "api" "stopped") (trace x) = true) /\
  final x = Exited 0 /\
  count is_exit (trace x) = 1%nat /\
  last (trace x) = Some (EExit 0).
Proof.
  intros update publish x.
  destruct (shutdown_run env w now s) as (greeting & Hfinal & _ & Htrace).
  fold update publish x in Hfinal, Htrace.
  destruct (w now update) as [v|e].
  - destruct Htrace as [l ->]. repeat split; simpl; auto.
  - rewrite Htrace. repeat split; simpl; auto;
      match goal with H : exists _, Rejected _ = Resolved _ |- _ =>
        destruct H as [? H]; discriminate H end.
Qed.

Lemma shutdown_publishes_stopped_witness :
  let w := Sample.store_up in
  let env := Sample.env_complete in
  let update := DocUpdate "status" "api_status"
                  [("last_stopped", VServerTimestamp);
                   ("message", VStr "API stopped")] in
  let publish := DocSet "config" "api"
                   [("baseUrl", App.shutdown_url env);
                    ("status", VStr "stopped");
                    ("environment", App.environment env);
                    ("lastUpdated", VServerTimestamp)] true in
  let x := exec w 0 (Process.listener env Process.SIGTERM false) in
  (exists v, w 0%nat update = Resolved v) /\
  In (ECall publish) (trace x) /\
  existsb (writes_status "config" "api" "stopped") (trace x) = true.
Proof.
  intros w env update publish x.
  assert (exists v, w 0%nat update = Resolved v) as H
    by (eexists; reflexivity).
  split; [exact H|].
  apply (shutdown_publishes_stopped_and_exits env w 0 Process.SIGTERM).
  exact H.
Defined.

(** C3 as stated fails.  With every request answered, no write to
    [status/api_status] carries [status = "stopped"]; and when the update of
    [status/api_status] is rejected, [config/api] receives no write. *)
Lemma shutdown_api_status_lacks_stopped_status :
  let x := exec Sample.store_up 0
             (Process.listener Sample.env_complete Process.SIGTERM false) in
  let y := exec Sample.store_without_api_status 0
             (Process.listener Sample.env_complete Process.SIGTERM false) in
  ~ (existsb (writes_status "status" "api_status" "stopped") (trace x) = true
     /\ existsb (writes_status "config" "api" "stopped") (trace x) = true
     /\ final x = Exited 0)
  /\
  ~ (existsb (writes_status "status" "api_status" "stopped") (trace y) = true
     /\ existsb (writes_status "config" "api" "stopped") (trace y) = true
     /\ final y = Exited 0)
  /\ existsb (targets "config" "api") (trace y) = false.
Proof.
  vm_compute. repeat split; intros [H _]; discriminate H.
Qed.

(** C10. In the listener of either signal, run when the flag is unset (the
    only case in which it issues the update): when the update of
    [status/api_status] is rejected the publish to [config/api] is never
    attempted, the error is logged, and the listener still reaches
    [process.exit(0)]; the second write is attempted only after the first
    has succeeded, and whatever the store answers the run ends in
    [process.exit(0)]. *)
Theorem shutdown_writes_are_sequential
    (env : gmap string string) (w : world) (now : nat) (s : Process.signal)
    (e : error) :
  let update := DocUpdate "status" "api_status"
                  [("last_stopped", VServerTimestamp);
                   ("message", VStr "API stopped")] in
  w now update = Rejected e ->
  let x := exec w now (Process.listener env s false) in
  count (targets "config" "api") (trace x) = 0%nat /\
  count is_store_call (trace x) = 1%nat /\
  In (EDo (Log Error "Error during Firestore shutdown"
             [("error", VStr (err_message e))])) (trace x) /\
  final x = Exited 0 /\
  last (trace x) = Some (EExit 0) /\
  (forall w' now', final (exec w' now' (Process.listener env s false))
                   = Exited 0 /\
                   last (trace (exec w' now' (Process.listener env s false)))
                   = Some (EExit 0)).
Proof.
  intros update Hrej x.
  destruct (shutdown_run env w now s) as (greeting & Hfinal & _ & Htrace).
  fold update x in Hfinal, Htrace. rewrite Hrej in Htrace.
  rewrite Htrace. repeat split; simpl; auto.
  - destruct (shutdown_run env w' now' s) as (g & H & _). exact H.
  - destruct (shutdown_run env w' now' s) as (g & _ & _ & H).
    destruct (w' now' _) as [v|e'].
    + destruct H as [l ->]. reflexivity.
    + rewrite H. reflexivity.
Qed.

Lemma shutdown_writes_are_sequential_witness :
  let w := Sample.store_without_api_status in
  let env := Sample.env_complete in
  let x := exec w 0 (Process.listener env Process.SIGINT false) in
  w 0%nat (DocUpdate "status" "api_status"
             [("last_stopped", VServerTimestamp);
              ("message", VStr "API stopped")])
  = Rejected (new_Error "5 NOT_FOUND") /\
  count (targets "config" "api") (trace x) = 0%nat /\
  final x = Exited 0.
Proof.
  intros w env x.
  split; [reflexivity|].
  destruct (shutdown_writes_are_sequential env w 0 Process.SIGINT
              (new_Error "5 NOT_FOUND") eq_refl) as (H1 & _ & _ & H2 & _).
  split; [exact H1|exact H2].
Defined.

(* ===================================================================== *)
(** ** Validation of the credential bundle *)
(* ===================================================================== *)

Lemma incomplete_message_names_missing (config : Config.firebase) field :
  In field FirebaseService.requiredFields ->
  truthy (Config.field config field) = false ->
  occurs field (FirebaseService.incomplete_message config) = true.
Proof.
  unfold FirebaseService.incomplete_message, FirebaseService.missingFields,
    FirebaseService.requiredFields.
  intros Hin Hfalsy. cbn [List.filter].
  change (Config.field config "projectId") with (Config.projectId config).
  change (Config.field config "clientEmail") with (Config.clientEmail config).
  change (Config.field config "privateKey") with (Config.privateKey config).
  change (Config.field config "databaseURL") with (Config.databaseURL config).
  destruct Hin as [<-|[<-|[<-|[<-|[]]]]];
    [change (Config.field config "projectId")
       with (Config.projectId config) in Hfalsy
    |change (Config.field config "clientEmail")
       with (Config.clientEmail config) in Hfalsy
    |change (Config.field config "privateKey")
       with (Config.privateKey config) in Hfalsy
    |change (Config.field config "databaseURL")
       with (Config.databaseURL config) in Hfalsy];
    rewrite Hfalsy;
    destruct (truthy (Config.projectId config));
    destruct (truthy (Config.clientEmail config));
    destruct (truthy (Config.privateKey config));
    destruct (truthy (Config.databaseURL config));
    try discriminate Hfalsy; vm_compute; reflexivity.
Qed.

(** C7, as the code has it.  For every credential bundle that misses one or
    more of the four required fields, [initializeFirebase] fails before any
    request to the store and before the store client is constructed.  The
    configuration error, whose message names every missing field, is logged
    and wrapped: what is thrown is an error with status code 500 and the
    message ["Échec de l'initialisation de Firebase"], which carries the
    message of the configuration error as its details. *)
Theorem initializeFirebase_rejects_incomplete_config
    (config : Config.firebase) (nodeEnv : value) (apps_length : nat) :
  FirebaseService.missingFields config <> [] ->
  let s := start (FirebaseService.initializeFirebase config nodeEnv
                    apps_length) in
  let cause := FirebaseService.incomplete_message config in
  seg_status s
  = Finished (Thrown (VErr (new_AppError 500
                              "Échec de l'initialisation de Firebase"
                              (VStr cause)))) /\
  (forall field, In field FirebaseService.requiredFields ->
     truthy (Config.field config field) = false ->
     occurs field cause = true) /\
  seg_trace s
  = [EDo (Log Info "Firebase: Utilisation des credentials directes" []);
     EDo (Log Error "Échec de l'initialisation de Firebase"
            [("error", VStr cause);
             ("stack", VStr (captureStack "AppError" cause))])] /\
  count is_store_call (seg_trace s) = 0%nat /\
  count is_client_construction (seg_trace s) = 0%nat /\
  seg_spawned s = [].
Proof.
  intros Hmissing s cause. subst s cause.
  split; [|split; [apply incomplete_message_names_missing|]];
    unfold FirebaseService.initializeFirebase;
    destruct (FirebaseService.missingFields config) eqn:E; try done;
    cbn [length Nat.ltb Nat.leb try_catch]; repeat split; reflexivity.
Qed.

Lemma initializeFirebase_rejects_incomplete_config_witness :
  let config := Sample.config_incomplete in
  let s := start (FirebaseService.initializeFirebase config
                    (VStr "production") 0) in
  FirebaseService.missingFields config = ["projectId"; "databaseURL"] /\
  FirebaseService.missingFields config <> [] /\
  seg_status s
  = Finished (Thrown (VErr (new_AppError 500
       "Échec de l'initialisation de Firebase"
       (VStr "Configuration credentials Firebase incomplète : projectId, databaseURL manquant(s)")))) /\
  count is_store_call (seg_trace s) = 0%nat /\
  count is_client_construction (seg_trace s) = 0%nat /\
  seg_spawned s = [].
Proof.
  intros config s.
  assert (FirebaseService.missingFields config <> []) as H
    by (vm_compute; discriminate).
  split; [vm_compute; reflexivity|]. split; [exact H|].
  destruct (initializeFirebase_rejects_incomplete_config
              config (VStr "production") 0 H) as (H1 & _ & _ & H2 & H3 & H4).
  split; [exact H1|]. split; [exact H2|]. split; [exact H3|exact H4].
Defined.

(** C7 as stated fails: with [projectId] and [databaseURL] missing, the
    message of the error that [initializeFirebase] throws names neither. *)
Lemma initializeFirebase_error_message_is_generic :
  let s := start (FirebaseService.initializeFirebase Sample.config_incomplete
                    (VStr "production") 0) in
  FirebaseService.missingFields Sample.config_incomplete
  = ["projectId"; "databaseURL"] /\
  exists e,
    seg_status s = Finished (Thrown (VErr e)) /\
    err_message e = "Échec de l'initialisation de Firebase" /\
    occurs "projectId" (err_message e) = false /\
    occurs "databaseURL" (err_message e) = false.
Proof.
  split; [vm_compute; reflexivity|].
  eexists. vm_compute. repeat split.
Qed.

(* ===================================================================== *)
(** ** The fault listeners *)
(* ===================================================================== *)

Lemma prop_not_nullish v key :
  nullish v = false -> exists x, prop v key = Ret x.
Proof. unfold prop. destruct v; simpl; try discriminate; eauto. Qed.

(** On a thrown value that is not [null] or [undefined], the
    ['uncaughtException'] listener logs; it then calls [process.exit(1)]
    when shutdown has not begun and does nothing more when it has. *)
Lemma uncaught_exception_while_running env p err :
  Process.exit_code p = None -> Process.isShuttingDown p = false ->
  nullish err = false ->
  let q := Process.step env p (Process.UncaughtException err) in
  Process.exit_code q = Some 1%Z /\
  exists m, since p q = [EDo (Log Error "Uncaught Exception" m); EExit 1].
Proof.
  intros Halive Hflag Hv q. subst q.
  unfold Process.step, Process.fault, Process.alive, since.
  rewrite Halive, Hflag. unfold App.on_uncaughtException.
  destruct (prop_not_nullish err "message" Hv) as [m ->].
  destruct (prop_not_nullish err "stack" Hv) as [st ->].
  simpl. split; [done|]. rewrite drop_app_length. eauto.
Qed.

Lemma uncaught_exception_while_shutting_down env p err :
  Process.exit_code p = None -> Process.isShuttingDown p = true ->
  nullish err = false ->
  let q := Process.step env p (Process.UncaughtException err) in
  Process.exit_code q = None /\
  Process.isShuttingDown q = true /\
  Process.tasks q = Process.tasks p /\
  exists m, since p q = [EDo (Log Error "Uncaught Exception" m)].
Proof.
  intros Halive Hflag Hv q. subst q.
  unfold Process.step, Process.fault, Process.alive, since.
  rewrite Halive, Hflag. unfold App.on_uncaughtException.
  destruct (prop_not_nullish err "message" Hv) as [m ->].
  destruct (prop_not_nullish err "stack" Hv) as [st ->].
  simpl. rewrite Halive, Hflag, drop_app_length. eauto.
Qed.

(** On a reason that is not [null] or [undefined], the
    ['unhandledRejection'] listener only logs. *)
Lemma unhandled_rejection_is_logged env p reason :
  Process.exit_code p = None -> nullish reason = false ->
  let q := Process.step env p (Process.UnhandledRejection reason) in
  Process.exit_code q = None /\
  Process.isShuttingDown q = Process.isShuttingDown p /\
  Process.tasks q = Process.tasks p /\
  exists m, since p q = [EDo (Log Error "Unhandled Promise Rejection" m)].
Proof.
  intros Halive Hv q. subst q.
  unfold Process.step, Process.rejection, Process.alive, since.
  rewrite Halive. unfold App.on_unhandledRejection.
  destruct (prop_not_nullish reason "message" Hv) as [m ->].
  destruct (prop_not_nullish reason "stack" Hv) as [st ->].
  simpl. rewrite Halive, drop_app_length, orb_false_r. eauto.
Qed.

(** C8, at the input where the code departs from it.  A promise rejected
    with [undefined] reaches the ['unhandledRejection'] listener, whose
    [reason.message] throws a [TypeError]; the runtime hands that exception
    to the ['uncaughtException'] listener, which logs it and, shutdown not
    having begun, calls [process.exit(1)]. *)
Theorem unhandled_rejection_of_undefined_exits
    (env : gmap string string) (p : Process.proc) :
  Process.exit_code p = None -> Process.isShuttingDown p = false ->
  let q := Process.step env p (Process.UnhandledRejection VUndefined) in
  Process.exit_code q = Some 1%Z /\
  since p q
  = [EDo (Log Error "Uncaught Exception"
            [("error",
              VStr "Cannot read properties of undefined (reading 'message')");
             ("stack",
              VStr "TypeError: Cannot read properties of undefined (reading 'message')")]);
     EExit 1].
Proof.
  intros Halive Hflag q. subst q.
  unfold Process.step, Process.rejection, Process.fault, Process.alive, since.
  rewrite Halive. simpl. rewrite Halive, Hflag. simpl.
  split; [done|]. by rewrite app_nil_r, drop_app_length.
Qed.

Lemma unhandled_rejection_of_undefined_witness :
  Process.exit_code Sample.started = None /\
  Process.isShuttingDown Sample.started = false /\
  Process.exit_code
    (Process.step Sample.env_complete Sample.started
       (Process.UnhandledRejection VUndefined)) = Some 1%Z.
Proof.
  assert (Process.exit_code Sample.started = None) as H1
    by (vm_compute; reflexivity).
  assert (Process.isShuttingDown Sample.started = false) as H2
    by (vm_compute; reflexivity).
  split; [exact H1|]. split; [exact H2|].
  apply (unhandled_rejection_of_undefined_exits
           Sample.env_complete Sample.started H1 H2).
Defined.

(* ===================================================================== *)
(** ** Overlapping shutdown triggers *)
(* ===================================================================== *)

Lemma closing_start t :
  closing t ->
  seg_spawned (start t) = [] /\
  count is_stop_update (seg_trace (start t)) = 0%nat /\
  ((seg_status (start t) = Finished (Exited 0) /\
    count is_exit (seg_trace (start t)) = 1%nat)
   \/
   (exists c k, seg_status (start t) = Suspended c k /\
                (forall o, closing (k o)) /\
                count is_exit (seg_trace (start t)) = 0%nat)).
Proof.
  induction 1 as [|e k Hk IH|c k Hc Hk IH]; simpl.
  - auto.
  - destruct IH as (H1 & H2 & H3). rewrite !count_cons, H2. simpl.
    repeat split; [done..|].
    destruct H3 as [[? ?]|(c & k' & ? & ? & ?)]; [left|right]; eauto 10.
  - repeat split; [|right; eauto 10].
    rewrite count_cons, Hc. done.
Qed.

(** The listener of a signal that finds the flag unset sets it, logs and
    issues the update of [status/api_status]; it is then suspended, and what
    remains of it is [closing]. *)
Lemma listener_start env s :
  exists greeting c k,
    start (Process.listener env s false)
    = mkSegment [EDo SetShuttingDown; EDo (Log Info greeting []); ECall c]
        (Suspended c k) [] /\
    is_stop_update (ECall c) = true /\
    (forall o, closing (k o)).
Proof.
  destruct s; simpl; do 3 eexists; (split; [reflexivity|]);
    (split; [reflexivity|]);
    intros [v|e]; simpl; repeat constructor;
    intros [v'|e']; simpl; repeat constructor.
Qed.

(** The listener of a signal that finds the flag set returns at once. *)
Lemma listener_guard env s : Process.listener env s true = Ret VUndefined.
Proof. by destruct s. Qed.

Lemma record_shutting_down p0 q tr :
  shutting_down p0 q ->
  count is_stop_update tr = 0%nat -> count is_exit tr = 0%nat ->
  shutting_down p0 (Process.record tr q).
Proof.
  intros (tr0 & Hh & Hf & Hc & Hcase) H1 H2.
  exists (tr0 ++ tr). simpl. rewrite Hh, Hf, !count_app, H1, H2, Hc.
  rewrite app_assoc, !Nat.add_0_r. repeat split; done.
Qed.

Lemma step_shutting_down env p0 q i :
  shutting_down p0 q -> is_trigger_or_settle i = true ->
  shutting_down p0 (Process.step env q i).
Proof.
  intros Hq Hi. unfold Process.step.
  destruct (Process.alive q) eqn:Ha; [|done].
  pose proof Hq as (tr & Hh & Hf & Hc & Hcase).
  destruct Hcase as [(He & Hx & n & c & k & Hn & Hk & Hothers)|(He & _)];
    [|unfold Process.alive in Ha; by rewrite He in Ha].
  destruct i as [s|m o| |]; try discriminate Hi.
  - rewrite Hf, listener_guard. unfold Process.absorb, Process.park. simpl.
    assert (Process.alive (Process.record [] q) = true) as Hal
      by (unfold Process.alive; simpl; by rewrite He).
    rewrite Hal.
    destruct (Process.closes_on_signal q); simpl; rewrite ?Hal;
      repeat apply record_shutting_down; done.
  - destruct (decide (m = n)) as [->|Hne].
    + rewrite Hn.
      destruct (closing_start _ (Hk o)) as (Hs & Hstop & Hstatus).
      unfold Process.absorb. rewrite Hs.
      destruct Hstatus as [[-> Hexit]|(c' & k' & -> & Hk' & Hexit)]; simpl.
      * exists (tr ++ seg_trace (start (k o))). simpl.
        rewrite Hh, Hf, !count_app, Hc, Hstop, Hexit, Hx, app_assoc.
        repeat split; auto.
      * exists (tr ++ seg_trace (start (k o))). simpl.
        rewrite Hh, Hf, !count_app, Hc, Hstop, Hexit, Hx, app_assoc.
        repeat split; try done. left. repeat split; try done.
        exists n, c', k'. repeat split; try done.
        -- apply list_lookup_insert_eq. by eapply lookup_lt_Some.
        -- intros m slot Hm. rewrite list_lookup_insert_ne by done.
           by apply Hothers.
    + destruct (Process.tasks q !! m) as [[[c' k']|]|] eqn:Hm; try done.
      by specialize (Hothers m _ Hne Hm).
Qed.

Lemma run_shutting_down env p0 q inputs :
  shutting_down p0 q ->
  forallb is_trigger_or_settle inputs = true ->
  shutting_down p0 (Process.run env q inputs).
Proof.
  revert q. induction inputs as [|i inputs IH]; intros q Hq Hall; [done|].
  simpl in Hall. apply andb_true_iff in Hall as [Hi Hall].
  simpl. apply IH; [|done]. by apply step_shutting_down.
Qed.

(** The first trigger: the flag is set in the same synchronous run that
    issues the first store request. *)
Lemma first_signal_shuts_down env p s :
  running p -> shutting_down p (Process.step env p (Process.Signal s)).
Proof.
  intros (Halive & Hflag & Hidle). unfold Process.step, Process.alive.
  rewrite Halive, Hflag.
  destruct (listener_start env s) as (g & c & k & -> & Hc & Hk).
  unfold Process.absorb, Process.park, Process.alive. simpl.
  rewrite Halive.
  set (p1 := Process.with_tasks _ _).
  assert (shutting_down p p1) as Hp1.
  { exists [EDo SetShuttingDown; EDo (Log Info g []); ECall c].
    subst p1. simpl. rewrite orb_true_r, !count_cons, Hc. simpl.
    repeat split; try done. left. repeat split; try done.
    exists (length (Process.tasks p)), c, k. repeat split; try done.
    - by rewrite list_lookup_middle.
    - intros m slot Hm Hlook.
      destruct (decide (m < length (Process.tasks p))%nat) as [Hlt|Hge].
      + rewrite lookup_app_l in Hlook by done.
        eapply Forall_lookup_1 in Hidle; [|exact Hlook]. done.
      + apply lookup_lt_Some in Hlook. rewrite length_app in Hlook.
        simpl in Hlook. lia. }
  destruct (Process.closes_on_signal p); simpl; rewrite ?Halive; [|done].
  by apply record_shutting_down.
Qed.

Lemma since_shutting_down p0 q :
  shutting_down p0 q ->
  Process.isShuttingDown q = true /\
  count is_stop_update (since p0 q) = 1%nat /\
  (count is_exit (since p0 q) <= 1)%nat /\
  (Process.exit_code q <> None ->
     Process.exit_code q = Some 0%Z /\ count is_exit (since p0 q) = 1%nat).
Proof.
  intros (tr & Hh & Hf & Hc & Hcase). unfold since.
  rewrite Hh, drop_app_length.
  destruct Hcase as [(He & Hx & _)|(He & Hx)]; rewrite Hx;
    repeat split; try done; lia.
Qed.

Lemma first_signal_trace env p s :
  running p ->
  exists greeting c,
    is_stop_update (ECall c) = true /\
    since p (Process.step env p (Process.Signal s))
    = [EDo SetShuttingDown; EDo (Log Info greeting []); ECall c]
      ++ (if Process.closes_on_signal p then [EDo ServerClose] else []).
Proof.
  intros (Halive & Hflag & _). unfold Process.step, Process.alive, since.
  rewrite Halive, Hflag.
  destruct (listener_start env s) as (g & c & k & -> & Hc & _).
  exists g, c. split; [done|].
  unfold Process.absorb, Process.park, Process.alive. simpl.
  rewrite Halive.
  destruct (Process.closes_on_signal p); simpl; rewrite ?Halive; simpl;
    by rewrite <- ?app_assoc, drop_app_length.
Qed.

(** C4. Whatever two signals arrive, the second while the listener of the
    first has not yet reached its exit: the listener of the first sets the
    shutdown flag in its first synchronous run, ahead of its first request
    and so before it is suspended; the listener of the second finds the flag
    set and adds nothing (only [server.close()] runs again when it is
    registered); so one shutdown write sequence is started and, once the
    requests of the first listener are settled, one call of [process.exit]
    is made, with code 0.  Further triggers and any order and outcome of the
    completions change nothing. *)
Theorem overlapping_signals_shut_down_once
    (env : gmap string string) (p : Process.proc)
    (s1 s2 : Process.signal) (earlier later : list Process.input) :
  running p ->
  forallb is_trigger_or_settle earlier = true ->
  forallb is_trigger_or_settle later = true ->
  let p0 := Process.step env p (Process.Signal s1) in
  let p1 := Process.run env p0 earlier in
  Process.exit_code p1 = None ->
  let p2 := Process.step env p1 (Process.Signal s2) in
  let p3 := Process.run env p2 later in
  Process.isShuttingDown p0 = true /\
  (exists greeting c,
     is_stop_update (ECall c) = true /\
     since p p0
     = [EDo SetShuttingDown; EDo (Log Info greeting []); ECall c]
       ++ (if Process.closes_on_signal p then [EDo ServerClose] else [])) /\
  Process.history p2
  = Process.history p1
    ++ (if Process.closes_on_signal p1 then [EDo ServerClose] else []) /\
  count is_stop_update (since p p3) = 1%nat /\
  (count is_exit (since p p3) <= 1)%nat /\
  (Process.exit_code p3 <> None ->
     Process.exit_code p3 = Some 0%Z /\ count is_exit (since p p3) = 1%nat).
Proof.
  intros Hp Hearlier Hlater p0 p1 Halive p2 p3.
  pose proof (first_signal_shuts_down env p s1 Hp) as H0. fold p0 in H0.
  pose proof (run_shutting_down env p _ earlier H0 Hearlier) as H1.
  fold p1 in H1.
  assert (shutting_down p p2) as H2 by (by apply step_shutting_down).
  pose proof (run_shutting_down env p _ later H2 Hlater) as H3.
  fold p3 in H3.
  split; [by apply (since_shutting_down p _ H0)|].
  split; [by apply first_signal_trace|].
  split; [|by apply since_shutting_down].
  subst p2. unfold Process.step, Process.alive. rewrite Halive.
  destruct (since_shutting_down p p1 H1) as (-> & _).
  rewrite listener_guard.
  unfold Process.absorb, Process.park, Process.alive. simpl.
  rewrite Halive. simpl.
  destruct (Process.closes_on_signal p1); simpl; rewrite ?Halive; simpl;
    by rewrite ?app_nil_r, <- ?app_assoc.
Qed.

Lemma overlapping_signals_witness :
  let env := Sample.env_complete in
  let p := Sample.started in
  let earlier := [Process.Settle 3 Sample.done_] in
  let later := [Process.Settle 3 Sample.done_] in
  let p1 := Process.run env
              (Process.step env p (Process.Signal Process.SIGTERM)) earlier in
  let p3 := Process.run env
              (Process.step env p1 (Process.Signal Process.SIGINT)) later in
  running p /\
  Process.exit_code p1 = None /\
  count is_stop_update (since p p3) = 1%nat /\
  Process.exit_code p3 = Some 0%Z /\
  count is_exit (since p p3) = 1%nat.
Proof.
  intros env p earlier later p1 p3.
  assert (running p) as Hp.
  { vm_compute. repeat split. repeat constructor. }
  assert (Process.exit_code p1 = None) as H1 by (vm_compute; reflexivity).
  destruct (overlapping_signals_shut_down_once
              env p Process.SIGTERM Process.SIGINT earlier later
              Hp eq_refl eq_refl H1) as (_ & _ & _ & Hc & _ & Hdone).
  split; [exact Hp|]. split; [exact H1|]. split; [exact Hc|].
  apply Hdone. vm_compute. discriminate.
Defined.

(* ===================================================================== *)
(** ** Start-up when the connectivity probe fails *)
(* ===================================================================== *)

(** With a complete credential bundle [initializeFirebase] returns as soon
    as the first probe has been issued: [retryConnect(3, 5000)] is called
    without [await], so its promise is left to the event loop and its
    outcome cannot reach the [catch] of [initializeFirebase]. *)
Lemma initializeFirebase_returns_before_probe
    (config : Config.firebase) (nodeEnv : value) (apps_length : nat) :
  FirebaseService.missingFields config = [] ->
  let s := start (FirebaseService.initializeFirebase config nodeEnv
                    apps_length) in
  seg_status s = Finished (Returned VUndefined) /\
  count is_probe (seg_trace s) = 1%nat /\
  exists k,
    seg_spawned s
    = [Suspended (DocSet "status" "connection_test"
                    [("lastChecked", VServerTimestamp);
                     ("status", VStr "connected")] false) k].
Proof.
  intros Hcomplete s. subst s.
  unfold FirebaseService.initializeFirebase. rewrite Hcomplete.
  destruct apps_length; simpl; eauto.
Qed.

(** C1, at an input where the code departs from it.  The store rejects the
    three probes of [retryConnect] and answers everything else.
    Initialization has returned normally before the first rejection; the
    final failure of [retryConnect] reaches only the ['unhandledRejection']
    listener, which logs it; the process does not end, [healthCheck]
    succeeds and the listener is opened. *)
Theorem failed_probes_do_not_stop_startup :
  let env := Sample.env_complete in
  let p := Process.run env (Process.boot env Sample.host_ip)
             Sample.probes_refused in
  seg_status (start (FirebaseService.initializeFirebase
                       (Config.firebase_of_env env) (Config.nodeEnv env) 0))
  = Finished (Returned VUndefined) /\
  count is_probe (Process.history p) = 3%nat /\
  count (is_delay 5000) (Process.history p) = 2%nat /\
  In (EDo (Log Error
       "Échec définitif de la connexion à Firestore après plusieurs tentatives"
       [])) (Process.history p) /\
  last (Process.history p)
  = Some (EDo (Log Error "Unhandled Promise Rejection"
                 [("reason", VStr "Impossible de se connecter à Firestore");
                  ("stack",
                   VStr "AppError: Impossible de se connecter à Firestore");
                  ("promise", VPromise)])) /\
  Process.exit_code p = None /\
  count is_exit (Process.history p) = 0%nat /\
  In (EDo (Listen (VStr "4000") "0.0.0.0")) (Process.history p).
Proof.
  vm_compute. repeat split;
    repeat (first [left; reflexivity | right]).
Qed.

(* ===================================================================== *)
(** ** Publishing the address *)
(* ===================================================================== *)

(** X1. [updateApiUrlInFirestore(url, status)] never throws and takes no
    time of its own: it issues one merge write of [baseUrl], [status],
    [environment] and [lastUpdated] to [config/api], logs the success or the
    failure of that write, and returns. *)
Theorem updateApiUrlInFirestore_swallows_failures
    (env : gmap string string) (url status : value) (w : world) (now : nat) :
  let publish := DocSet "config" "api"
                   [("baseUrl", url); ("status", status);
                    ("environment", App.environment env);
                    ("lastUpdated", VServerTimestamp)] true in
  let x := exec w now (App.updateApiUrlInFirestore env url status) in
  final x = Returned VUndefined /\
  finish x = now /\
  trace x
  = [ECall publish;
     EDo match w now publish with
         | Resolved _ =>
             Log Info ("API URL updated in Firestore: " +:+ to_str url)
               [("status", status)]
         | Rejected e =>
             Log Error "Failed to update API URL in Firestore"
               [("error", VStr (err_message e));
                ("stack", VStr (err_stack e))]
         end].
Proof.
  intros publish x. subst x. unfold App.updateApiUrlInFirestore. simpl.
  fold publish. by destruct (w now publish).
Qed.

(** X2. The callback of [app.listen] attempts both of its writes whatever
    the first one answers: the publish to [config/api] with
    [status = "active"], then the write of [status/api_status].  It returns
    when the second write succeeds and rejects with the store's error when
    it fails. *)
Theorem listen_callback_publishes_independently
    (env : gmap string string) (port ip : value) (localUrl : string)
    (w : world) (now : nat) :
  let apiUrl := js_or (Config.getenv env "RENDER_EXTERNAL_URL")
                  (VStr localUrl) in
  let publish := DocSet "config" "api"
                   [("baseUrl", apiUrl); ("status", VStr "active");
                    ("environment", App.environment env);
                    ("lastUpdated", VServerTimestamp)] true in
  let started := DocSet "status" "api_status"
                   [("last_started", VServerTimestamp);
                    ("message", VStr "API started");
                    ("port", port);
                    ("environment", App.environment env);
                    ("ip", ip);
                    ("apiUrl", apiUrl)] false in
  let x := exec w now (App.listen_callback env port ip localUrl) in
  List.filter is_store_call (trace x) = [ECall publish; ECall started] /\
  final x = match w now started with
            | Resolved _ => Returned VUndefined
            | Rejected e => Thrown (VErr e)
            end.
Proof.
  intros apiUrl publish started x. subst x.
  unfold App.listen_callback, App.updateApiUrlInFirestore.
  fold apiUrl. simpl. fold publish.
  destruct (w now publish); simpl; fold started;
    destruct (w now started); done.
Qed.

(* ===================================================================== *)
(** ** The retry loops against an arbitrary store *)
(* ===================================================================== *)

(** X3. An attempt of [healthCheck] returns [true] exactly when no required
    variable is missing, the write to [status/health_check] succeeds and the
    listing answers with an array whose items all have an [id] to read.  It
    sends at most two requests, none when a variable is missing, and the
    listing only after the write has succeeded. *)
Theorem healthCheck_attempt_succeeds_iff
    (env : gmap string string) (w : world) (now : nat) (a : Z) :
  let write := DocSet "status" "health_check"
                 [("lastChecked", VServerTimestamp);
                  ("status", VStr "healthy")] false in
  let x := exec w now (App.healthCheck_attempt env a) in
  (final x = Returned (VBool true) <->
   App.missingVars env = [] /\
   exists v items ids,
     w now write = Resolved v /\
     w now ListCollections = Resolved (VArr items) /\
     map_prop_items items "id" = inl ids) /\
  (count is_store_call (trace x) <= 2)%nat /\
  (App.missingVars env <> [] -> count is_store_call (trace x) = 0%nat) /\
  (In (ECall ListCollections) (trace x) -> exists v, w now write = Resolved v).
Proof.
  intros write x. subst x. unfold App.healthCheck_attempt.
  destruct (App.missingVars env) as [|name names] eqn:Henv; simpl.
  2: { split; [split; [discriminate|intros [H _]; discriminate H]|].
       split; [unfold count; simpl; lia|]. split; [done|].
       intros [H|[]]. discriminate H. }
  fold write.
  destruct (w now write) as [v|e]; simpl.
  2: { split; [split; [discriminate|];
               intros (_ & ? & ? & ? & H & _); discriminate H|].
       split; [unfold count; simpl; lia|]. split; [done|].
       intros [H|[H|[H|[]]]]; discriminate H. }
  destruct (w now ListCollections) as [cs|e]; simpl.
  2: { split; [split; [discriminate|];
               intros (_ & ? & ? & ? & _ & H & _); discriminate H|].
       split; [unfold count; simpl; lia|]. split; [done|]. eauto. }
  unfold map_prop.
  destruct cs; simpl;
    try (split; [split; [discriminate|];
                 intros (_ & ? & ? & ? & _ & H & _); discriminate H|];
         split; [unfold count; simpl; lia|]; split; [done|]; eauto).
  destruct (map_prop_items items "id") as [ids|e] eqn:Hids; simpl.
  - split; [split; eauto 10|]. split; [unfold count; simpl; lia|].
    split; [done|]. eauto.
  - split; [split; [discriminate|];
            intros (_ & ? & ? & ? & _ & H & H'); injection H as <-;
            congruence|].
    split; [unfold count; simpl; lia|]. split; [done|]. eauto.
Qed.

Section AnyStore.

Variable env : gmap string string.
Variable w : world.

Lemma healthCheck_attempt_quiet now a :
  let x := exec w now (App.healthCheck_attempt env a) in
  count is_exit (trace x) = 0%nat /\
  count is_listen (trace x) = 0%nat /\
  (count is_store_call (trace x) <= 2)%nat.
Proof.
  unfold App.healthCheck_attempt. simpl.
  destruct (0 <? length (App.missingVars env))%nat; simpl.
  { repeat split; [done..|]. rewrite count_cons, count_nil. simpl. lia. }
  destruct (w now (DocSet _ _ _ _)) as [v|e]; simpl.
  2: { repeat split; [done..|]. rewrite !count_cons, count_nil. simpl. lia. }
  destruct (w now ListCollections) as [cs|e]; simpl.
  2: { repeat split; [done..|]. rewrite !count_cons, count_nil. simpl. lia. }
  unfold map_prop.
  destruct cs; simpl;
    try (repeat split; [done..|]; rewrite !count_cons, count_nil; simpl; lia).
  destruct (map_prop_items items "id"); simpl;
    repeat split; try done; rewrite !count_cons, count_nil; simpl; lia.
Qed.

Lemma verifyConnection_quiet now :
  let x := exec w now FirebaseService.verifyConnection in
  count is_exit (trace x) = 0%nat /\
  count is_store_call (trace x) = 1%nat.
Proof.
  unfold FirebaseService.verifyConnection. simpl.
  by destruct (w now (DocSet _ _ _ _)).
Qed.

Variables N D : Z.

Local Opaque App.healthCheck_attempt FirebaseService.verifyConnection.

Lemma healthCheck_loop_any n a now last :
  (1 <= n)%nat -> (a + Z.of_nat n - 1 = N)%Z ->
  let x := exec w now (App.healthCheck_loop env N D n a last) in
  (final x = Returned (VBool true) \/ exists e, final x = Thrown (VErr e)) /\
  (1 <= count is_health_attempt (trace x) <= n)%nat /\
  S (count is_timeout (trace x)) = count is_health_attempt (trace x) /\
  count (is_delay D) (trace x) = count is_timeout (trace x) /\
  finish x = (now + count is_timeout (trace x))%nat /\
  count is_exit (trace x) = 0%nat /\
  count is_listen (trace x) = 0%nat /\
  (count is_store_call (trace x)
   <= 2 * count is_health_attempt (trace x))%nat.
Proof.
  revert a now last.
  induction n as [|n IH]; intros a now last Hn Ha; [lia|].
  cbn [App.healthCheck_loop]. rewrite exec_try_catch.
  destruct (healthCheck_attempt_run env w now a) as (Hfin & Hc1 & Hc2 & Hres).
  destruct (healthCheck_attempt_quiet now a) as (Hq1 & Hq2 & Hq3).
  pose proof (count_delay_le D
    (trace (exec w now (App.healthCheck_attempt env a)))) as Hc3.
  destruct Hres as [Hr|[e He]].
  { rewrite Hr. rewrite Hfin, Hc1, Hc2, Hq1, Hq2.
    repeat split; eauto; lia. }
  rewrite He, prop_error_message, prop_error_stack.
  cbn [bind exec]. rewrite Hfin.
  destruct n as [|n].
  - assert (a = N) by lia. subst a.
    rewrite Z.ltb_irrefl.
    cbn [App.healthCheck_loop].
    rewrite prop_error_message, prop_error_stack.
    cbn [bind exec emit trace final finish].
    rewrite !count_app, !count_cons, !count_nil, Hc1, Hc2, Hq1, Hq2.
    cbn [is_health_attempt is_log is_timeout is_delay is_exit is_listen
         is_store_call].
    repeat split; eauto; lia.
  - assert ((a <? N)%Z = true) as -> by (apply Z.ltb_lt; lia).
    unfold sleep. cbn [exec after].
    destruct (IH (a + 1)%Z (S now) (VErr e))
      as (H1 & H2 & H3 & H4 & H5 & H6 & H7 & H8); [lia|lia|].
    cbn [emit trace final finish].
    rewrite !count_app, !count_cons, !count_nil, Hc1, Hc2, Hq1, Hq2,
      H5, H6, H7.
    cbn [is_health_attempt is_log is_timeout is_delay is_exit is_listen
         is_store_call].
    rewrite Z.eqb_refl.
    repeat split; try done; lia.
Qed.

Lemma retryConnect_loop_any n a now last :
  (1 <= n)%nat -> (a + Z.of_nat n - 1 = N)%Z ->
  let x := exec w now (FirebaseService.retryConnect_loop N D n a last) in
  (final x = Returned (VBool true) \/ exists e, final x = Thrown (VErr e)) /\
  (1 <= count is_probe (trace x) <= n)%nat /\
  S (count is_timeout (trace x)) = count is_probe (trace x) /\
  count (is_delay D) (trace x) = count is_timeout (trace x) /\
  finish x = (now + count is_timeout (trace x))%nat /\
  count is_exit (trace x) = 0%nat /\
  count is_store_call (trace x) = count is_probe (trace x).
Proof.
  revert a now last.
  induction n as [|n IH]; intros a now last Hn Ha; [lia|].
  cbn [FirebaseService.retryConnect_loop].
  rewrite exec_try_catch, exec_bind.
  destruct (verifyConnection_run w now) as (Hfin & Hc1 & Hc2 & Hres).
  destruct (verifyConnection_quiet now) as (Hq1 & Hq2).
  pose proof (count_delay_le D
    (trace (exec w now FirebaseService.verifyConnection))) as Hc3.
  destruct Hres as [Hr|[e He]].
  { rewrite Hr. cbn [exec emit trace final finish].
    rewrite Hfin, !count_app, !count_cons, !count_nil, Hc1, Hc2, Hq1, Hq2.
    cbn [is_probe targets is_timeout is_delay is_exit is_store_call].
    repeat split; eauto; lia. }
  rewrite He. cbv iota. rewrite He, prop_error_message.
  cbn [bind exec]. rewrite Hfin.
  destruct n as [|n].
  - assert (a = N) by lia. subst a.
    rewrite Z.ltb_irrefl.
    cbn [FirebaseService.retryConnect_loop exec emit trace final finish].
    rewrite !count_app, !count_cons, !count_nil, Hc1, Hc2, Hq1, Hq2.
    cbn [is_probe targets is_timeout is_delay is_exit is_store_call].
    repeat split; eauto; lia.
  - assert ((a <? N)%Z = true) as -> by (apply Z.ltb_lt; lia).
    unfold sleep. cbn [exec after].
    destruct (IH (a + 1)%Z (S now) (VErr e))
      as (H1 & H2 & H3 & H4 & H5 & H6 & H7); [lia|lia|].
    cbn [emit trace final finish].
    rewrite !count_app, !count_cons, !count_nil, Hc1, Hc2, Hq1, Hq2,
      H5, H6, H7.
    cbn [is_probe targets is_timeout is_delay is_exit is_store_call].
    rewrite Z.eqb_refl.
    repeat split; try done; lia.
Qed.

End AnyStore.

(** X4. Whatever the store answers, [healthCheck(N, D)] with [N >= 1] ends
    by returning [true] or by throwing an error object; it makes between one
    and [N] attempts, waits exactly once between two consecutive attempts
    and always for [D] ms, sends at most two requests per attempt, and never
    calls [process.exit]. *)
Theorem healthCheck_any_store
    (env : gmap string string) (w : world) (now : nat) (N D : Z) :
  (1 <= N)%Z ->
  let x := exec w now (App.healthCheck env N D) in
  (final x = Returned (VBool true) \/ exists e, final x = Thrown (VErr e)) /\
  (1 <= count is_health_attempt (trace x) <= Z.to_nat N)%nat /\
  S (count is_timeout (trace x)) = count is_health_attempt (trace x) /\
  count (is_delay D) (trace x) = count is_timeout (trace x) /\
  finish x = (now + count is_timeout (trace x))%nat /\
  count is_exit (trace x) = 0%nat /\
  (count is_store_call (trace x)
   <= 2 * count is_health_attempt (trace x))%nat.
Proof.
  intros HN x.
  destruct (healthCheck_loop_any env w N D (Z.to_nat N) 1 now VNull)
    as (H1 & H2 & H3 & H4 & H5 & H6 & _ & H8); [lia|lia|].
  done.
Qed.

Lemma healthCheck_any_store_witness :
  (1 <= 3)%Z /\
  let x := exec (Sample.store_up_after 1) 0
             (App.healthCheck Sample.env_complete 3 5000) in
  final x = Returned (VBool true) /\
  count is_health_attempt (trace x) = 2%nat /\
  S (count is_timeout (trace x)) = count is_health_attempt (trace x).
Proof.
  split; [lia|].
  destruct (healthCheck_any_store Sample.env_complete
              (Sample.store_up_after 1) 0 3 5000) as (_ & _ & H & _); [lia|].
  split; [vm_compute; reflexivity|]. split; [vm_compute; reflexivity|].
  exact H.
Defined.

(** X5. Whatever the store answers, [retryConnect(N, D)] with [N >= 1] ends
    by returning [true] or by throwing an error object; it calls
    [verifyConnection] between one and [N] times, waits exactly once between
    two consecutive calls and always for [D] ms, sends no request other than
    the probes, and never calls [process.exit]. *)
Theorem retryConnect_any_store (w : world) (now : nat) (N D : Z) :
  (1 <= N)%Z ->
  let x := exec w now (FirebaseService.retryConnect N D) in
  (final x = Returned (VBool true) \/ exists e, final x = Thrown (VErr e)) /\
  (1 <= count is_probe (trace x) <= Z.to_nat N)%nat /\
  S (count is_timeout (trace x)) = count is_probe (trace x) /\
  count (is_delay D) (trace x) = count is_timeout (trace x) /\
  finish x = (now + count is_timeout (trace x))%nat /\
  count is_exit (trace x) = 0%nat /\
  count is_store_call (trace x) = count is_probe (trace x).
Proof.
  intros HN x.
  by destruct (retryConnect_loop_any w N D (Z.to_nat N) 1 now VNull)
    as (H1 & H2 & H3 & H4 & H5 & H6 & H7); [lia|lia|].
Qed.

Lemma retryConnect_any_store_witness :
  (1 <= 3)%Z /\
  let x := exec (Sample.store_up_after 2) 0
             (FirebaseService.retryConnect 3 5000) in
  final x = Returned (VBool true) /\
  count is_probe (trace x) = 3%nat /\
  S (count is_timeout (trace x)) = count is_probe (trace x).
Proof.
  split; [lia|].
  destruct (retryConnect_any_store (Sample.store_up_after 2) 0 3 5000)
    as (_ & _ & H & _); [lia|].
  split; [vm_compute; reflexivity|]. split; [vm_compute; reflexivity|].
  exact H.
Defined.

(* ===================================================================== *)
(** ** Opening the listener *)
(* ===================================================================== *)


(* ===================================================================== *)
(** ** The credential bundle and the construction of the client *)
(* ===================================================================== *)



(** The equation of [unescape_newlines] on a non-empty string. *)
Lemma unescape_newlines_cons c rest :
  Config.unescape_newlines (String c rest)
  = if Ascii.eqb c "\"%char then
      match rest with
      | String d r =>
          if Ascii.eqb d "n"%char
          then String "010"%char (Config.unescape_newlines r)
          else String c (Config.unescape_newlines rest)
      | EmptyString => String c EmptyString
      end
    else String c (Config.unescape_newlines rest).
Proof.
  destruct c as [[] [] [] [] [] [] [] []]; try reflexivity.
  destruct rest as [|d r]; [reflexivity|].
  destruct d as [[] [] [] [] [] [] [] []]; reflexivity.
Qed.

Lemma unescape_newlines_head d r :
  Ascii.eqb d "n"%char = false ->
  exists d' r',
    Config.unescape_newlines (String d r) = String d' r' /\
    Ascii.eqb d' "n"%char = false.
Proof.
  intros Hd. rewrite unescape_newlines_cons.
  destruct (Ascii.eqb d "\"%char); [|eauto].
  destruct r as [|e r2]; [eauto|].
  destruct (Ascii.eqb e "n"%char); eauto.
Qed.

Lemma unescape_newlines_idempotent_upto n s :
  (String.length s <= n)%nat ->
  Config.unescape_newlines (Config.unescape_newlines s)
  = Config.unescape_newlines s.
Proof.
  revert s. induction n as [|n IH]; intros s Hs.
  { destruct s; [done|simpl in Hs; lia]. }
  destruct s as [|c rest]; [done|]. simpl in Hs.
  rewrite (unescape_newlines_cons c rest).
  destruct (Ascii.eqb c "\"%char) eqn:Ec.
  - destruct rest as [|d r].
    + by rewrite unescape_newlines_cons, Ec.
    + destruct (Ascii.eqb d "n"%char) eqn:Ed.
      * rewrite unescape_newlines_cons. simpl Ascii.eqb. cbv iota.
        rewrite IH; [done|]. simpl in Hs. lia.
      * destruct (unescape_newlines_head d r Ed) as (d' & r' & HU & Hd').
        rewrite unescape_newlines_cons, Ec, HU, Hd', <- HU.
        rewrite IH; [done|lia].
  - rewrite unescape_newlines_cons, Ec. rewrite IH; [done|lia].
Qed.

Lemma unescape_newlines_truthy s :
  truthy (VStr (Config.unescape_newlines s)) = truthy (VStr s).
Proof.
  destruct s as [|c rest]; [done|]. rewrite unescape_newlines_cons.
  destruct (Ascii.eqb c "\"%char); [|done].
  destruct rest as [|d r]; [done|]. by destruct (Ascii.eqb d "n"%char).
Qed.

(** X8. Normalising the private key is idempotent, leaves a key without
    backslash as it is, and gives the empty string only for the empty
    string. *)
Theorem unescape_newlines_normalises (s : string) :
  Config.unescape_newlines (Config.unescape_newlines s)
  = Config.unescape_newlines s /\
  (no_backslash s = true -> Config.unescape_newlines s = s) /\
  (Config.unescape_newlines s = EmptyString <-> s = EmptyString).
Proof.
  split; [by apply (unescape_newlines_idempotent_upto (String.length s))|].
  split.
  - induction s as [|c rest IH]; [done|]. simpl no_backslash.
    intros [Hc Hrest]%andb_true_iff. rewrite unescape_newlines_cons.
    apply negb_true_iff in Hc. rewrite Hc. by rewrite IH.
  - pose proof (unescape_newlines_truthy s) as H. simpl in H.
    split; [|by intros ->].
    intros Hs. rewrite Hs in H. simpl in H.
    destruct s; [done|discriminate H].
Qed.

Lemma unescape_newlines_normalises_witness :
  no_backslash "-----BEGIN KEY-----" = true /\
  Config.unescape_newlines "-----BEGIN KEY-----" = "-----BEGIN KEY-----" /\
  Config.unescape_newlines "a\nb\\nc" = String "a" (String "010" "b\" +:+
    String "010" "c").
Proof.
  split; [reflexivity|]. split.
  - apply (unescape_newlines_normalises "-----BEGIN KEY-----"). reflexivity.
  - reflexivity.
Defined.

(** X9. A field of the credential bundle read from the environment is
    missing exactly when its variable is unset or empty: the fields that
    [initializeFirebase] reports are those of the unset or empty
    variables, in the order of [requiredFields]. *)
Theorem missing_fields_are_unset_variables (env : gmap string string) :
  FirebaseService.missingFields (Config.firebase_of_env env)
  = List.filter
      (fun name => negb (truthy (Config.getenv env (Config.variable_of name))))
      FirebaseService.requiredFields.
Proof.
  unfold FirebaseService.missingFields, FirebaseService.requiredFields.
  cbn [List.filter].
  change (Config.field (Config.firebase_of_env env) "projectId")
    with (Config.getenv env "FIREBASE_PROJECT_ID").
  change (Config.field (Config.firebase_of_env env) "clientEmail")
    with (Config.getenv env "FIREBASE_CLIENT_EMAIL").
  change (Config.field (Config.firebase_of_env env) "databaseURL")
    with (Config.getenv env "FIREBASE_DATABASE_URL").
  change (Config.variable_of "projectId") with "FIREBASE_PROJECT_ID".
  change (Config.variable_of "clientEmail") with "FIREBASE_CLIENT_EMAIL".
  change (Config.variable_of "privateKey") with "FIREBASE_PRIVATE_KEY".
  change (Config.variable_of "databaseURL") with "FIREBASE_DATABASE_URL".
  assert (truthy (Config.field (Config.firebase_of_env env) "privateKey")
          = truthy (Config.getenv env "FIREBASE_PRIVATE_KEY")) as ->.
  { change (Config.field (Config.firebase_of_env env) "privateKey")
      with (Config.privateKey (Config.firebase_of_env env)).
    unfold Config.firebase_of_env, Config.getenv.
    cbn [Config.privateKey].
    destruct (env !! "FIREBASE_PRIVATE_KEY") as [s|]; [|done].
    cbn [of_option].
    destruct (truthy (VStr s)) eqn:Hs; [|done].
    by rewrite unescape_newlines_truthy. }
  reflexivity.
Qed.

(* ===================================================================== *)
(** ** Loading the program *)
(* ===================================================================== *)

(** X10. When a credential variable is unset or empty, loading the program
    ends the process with code 1 from the constructor of the service:
    nothing but the two log lines of [initializeFirebase] has happened, so
    no client is constructed, no request is sent, no route is mounted and
    [startServer] is never called. *)
Theorem boot_with_incomplete_credentials
    (env : gmap string string) (host_ip : option string) :
  FirebaseService.missingFields (Config.firebase_of_env env) <> [] ->
  let p := Process.boot env host_ip in
  let cause :=
    FirebaseService.incomplete_message (Config.firebase_of_env env) in
  Process.exit_code p = Some 1%Z /\
  Process.history p
  = [EDo (Log Info "Firebase: Utilisation des credentials directes" []);
     EDo (Log Error "Échec de l'initialisation de Firebase"
            [("error", VStr cause);
             ("stack", VStr (captureStack "AppError" cause))])] /\
  Process.tasks p = [].
Proof.
  intros Hmissing p cause. subst p cause.
  unfold Process.boot, Process.script, FirebaseService.initializeFirebase.
  destruct (FirebaseService.missingFields (Config.firebase_of_env env));
    [done|].
  simpl. done.
Qed.

Lemma boot_with_incomplete_credentials_witness :
  let env := delete "FIREBASE_CLIENT_EMAIL" Sample.env_complete in
  FirebaseService.missingFields (Config.firebase_of_env env) <> [] /\
  Process.exit_code (Process.boot env Sample.host_ip) = Some 1%Z /\
  Process.tasks (Process.boot env Sample.host_ip) = [].
Proof.
  intros env.
  assert (FirebaseService.missingFields (Config.firebase_of_env env) <> [])
    as H by (vm_compute; discriminate).
  split; [exact H|].
  destruct (boot_with_incomplete_credentials env Sample.host_ip H)
    as (H1 & _ & H2).
  split; [exact H1|exact H2].
Defined.



(* ===================================================================== *)
(** ** Faults with an ordinary value *)
(* ===================================================================== *)

(** X12. For a thrown value or a rejection reason other than [null] and
    [undefined]: an uncaught exception is logged and then ends the process
    with [process.exit(1)] when shutdown has not begun, and is only logged
    when it has; an unhandled rejection is only logged, and changes neither
    the shutdown flag nor the promises in flight. *)
Theorem fault_listeners_on_ordinary_values
    (env : gmap string string) (p : Process.proc) (v : value) :
  Process.exit_code p = None -> nullish v = false ->
  (let q := Process.step env p (Process.UncaughtException v) in
   if Process.isShuttingDown p
   then Process.exit_code q = None /\
        Process.isShuttingDown q = true /\
        Process.tasks q = Process.tasks p /\
        exists m, since p q = [EDo (Log Error "Uncaught Exception" m)]
   else Process.exit_code q = Some 1%Z /\
        exists m, since p q
                  = [EDo (Log Error "Uncaught Exception" m); EExit 1]) /\
  (let q := Process.step env p (Process.UnhandledRejection v) in
   Process.exit_code q = None /\
   Process.isShuttingDown q = Process.isShuttingDown p /\
   Process.tasks q = Process.tasks p /\
   exists m, since p q = [EDo (Log Error "Unhandled Promise Rejection" m)]).
Proof.
  intros Halive Hv. split.
  - destruct (Process.isShuttingDown p) eqn:Hflag.
    + by apply uncaught_exception_while_shutting_down.
    + by apply uncaught_exception_while_running.
  - by apply unhandled_rejection_is_logged.
Qed.

Lemma fault_listeners_on_ordinary_values_witness :
  let p := Sample.started in
  let v := VErr (new_Error "boom") in
  Process.exit_code p = None /\ nullish v = false /\
  Process.exit_code
    (Process.step Sample.env_complete p (Process.UncaughtException v))
  = Some 1%Z /\
  Process.exit_code
    (Process.step Sample.env_complete p (Process.UnhandledRejection v))
  = None.
Proof.
  intros p v.
  assert (Process.exit_code p = None) as H1 by (vm_compute; reflexivity).
  assert (nullish v = false) as H2 by reflexivity.
  split; [exact H1|]. split; [exact H2|].
  destruct (fault_listeners_on_ordinary_values Sample.env_complete p v H1 H2)
    as [Ha Hb].
  split; [|apply Hb].
  change (Process.isShuttingDown p) with false in Ha. apply Ha.
Defined.

Lemma fault_step_while_shutting_down env q v :
  Process.exit_code q = None -> Process.isShuttingDown q = true ->
  nullish v = false ->
  exists m,
    Process.step env q (Process.UncaughtException v)
    = Process.record [EDo (Log Error "Uncaught Exception" m)] q.
Proof.
  intros Halive Hflag Hv.
  unfold Process.step, Process.fault, Process.alive.
  rewrite Halive, Hflag. unfold App.on_uncaughtException.
  destruct (prop_not_nullish v "message" Hv) as [m ->].
  destruct (prop_not_nullish v "stack" Hv) as [st ->].
  simpl. eauto.
Qed.

Lemma rejection_step env q v :
  Process.exit_code q = None -> nullish v = false ->
  exists m,
    Process.step env q (Process.UnhandledRejection v)
    = Process.record [EDo (Log Error "Unhandled Promise Rejection" m)] q.
Proof.
  intros Halive Hv.
  unfold Process.step, Process.rejection, Process.alive.
  rewrite Halive. unfold App.on_unhandledRejection.
  destruct (prop_not_nullish v "message" Hv) as [m ->].
  destruct (prop_not_nullish v "stack" Hv) as [st ->].
  simpl. eauto.
Qed.

Lemma step_ordinary_shutting_down env p0 q i :
  shutting_down p0 q -> is_ordinary i = true ->
  shutting_down p0 (Process.step env q i).
Proof.
  intros Hq Hi.
  destruct i as [s|m o|v|v]; try (by apply step_shutting_down);
    simpl in Hi; apply negb_true_iff in Hi;
    (destruct (Process.exit_code q) as [code|] eqn:Halive;
     [unfold Process.step, Process.alive; by rewrite Halive|]).
  - destruct Hq as (tr & Hh & Hf & Hrest).
    destruct (fault_step_while_shutting_down env q v Halive Hf Hi) as [m ->].
    apply record_shutting_down; [by exists tr|done..].
  - destruct (rejection_step env q v Halive Hi) as [m ->].
    by apply record_shutting_down.
Qed.

Lemma run_ordinary_shutting_down env p0 q inputs :
  shutting_down p0 q ->
  forallb is_ordinary inputs = true ->
  shutting_down p0 (Process.run env q inputs).
Proof.
  revert q. induction inputs as [|i inputs IH]; intros q Hq Hall; [done|].
  simpl in Hall. apply andb_true_iff in Hall as [Hi Hall].
  simpl. apply IH; [|done]. by apply step_ordinary_shutting_down.
Qed.

(** X13. Once a signal has begun the shutdown of a running process,
    neither further signals, nor the order and outcome of the completions,
    nor uncaught exceptions and unhandled rejections with a value other
    than [null] and [undefined] can start a second shutdown sequence or end
    the process in another way: the flag stays set, there is one update of
    [status/api_status], and if the process has ended it is by the one call
    [process.exit(0)] of the listener. *)
Theorem shutdown_survives_ordinary_faults
    (env : gmap string string) (p : Process.proc) (s : Process.signal)
    (inputs : list Process.input) :
  running p ->
  forallb is_ordinary inputs = true ->
  let q := Process.run env (Process.step env p (Process.Signal s)) inputs in
  Process.isShuttingDown q = true /\
  count is_stop_update (since p q) = 1%nat /\
  (count is_exit (since p q) <= 1)%nat /\
  (Process.exit_code q <> None ->
     Process.exit_code q = Some 0%Z /\ count is_exit (since p q) = 1%nat).
Proof.
  intros Hp Hall q.
  apply since_shutting_down.
  apply run_ordinary_shutting_down; [|done].
  by apply first_signal_shuts_down.
Qed.

Lemma shutdown_survives_ordinary_faults_witness :
  let env := Sample.env_complete in
  let p := Sample.started in
  let inputs :=
    [Process.UncaughtException (VErr (new_Error "boom"));
     Process.Settle 3 Sample.done_;
     Process.UnhandledRejection (VStr "late");
     Process.Signal Process.SIGINT;
     Process.Settle 3 Sample.refused] in
  let q := Process.run env
             (Process.step env p (Process.Signal Process.SIGTERM)) inputs in
  running p /\
  forallb is_ordinary inputs = true /\
  count is_stop_update (since p q) = 1%nat /\
  Process.exit_code q = Some 0%Z /\
  count is_exit (since p q) = 1%nat.
Proof.
  intros env p inputs q.
  assert (running p) as Hp.
  { vm_compute. repeat split. repeat constructor. }
  split; [exact Hp|]. split; [reflexivity|].
  destruct (shutdown_survives_ordinary_faults
              env p Process.SIGTERM inputs Hp eq_refl) as (_ & Hc & _ & Hdone).
  split; [exact Hc|].
  apply Hdone. vm_compute. discriminate.
Defined.

(* ===================================================================== *)
(** ** Listing the collections, and the health route *)
(* ===================================================================== *)



(** X15. The handler of [GET /api/health] reads [status/health_check] once
    and always answers: with 200 and [status = "healthy"], the uptime and
    the timestamp when the read succeeds; with 500, [status = "unhealthy"]
    and the message of the store's error when it fails, in which case the
    failure is also logged.  It never throws. *)
Theorem health_route_always_answers
    (uptime timestamp : value) (w : world) (now : nat) :
  let read := DocGet "status" "health_check" in
  let x := exec w now (App.health_route uptime timestamp) in
  List.filter is_store_call (trace x) = [ECall read] /\
  finish x = now /\
  match w now read with
  | Resolved _ =>
      final x
      = Returned (VObj [("statusCode", VNum 200);
                        ("body", VObj [("status", VStr "healthy");
                                       ("uptime", uptime);
                                       ("timestamp", timestamp)])]) /\
      trace x = [ECall read]
  | Rejected e =>
      final x
      = Returned (VObj [("statusCode", VNum 500);
                        ("body", VObj [("status", VStr "unhealthy");
                                       ("error", VStr (err_message e))])]) /\
      trace x
      = [ECall read;
         EDo (Log Error "Health check failed"
                [("error", VStr (err_message e))])]
  end.
Proof.
  intros read x. subst x. unfold App.health_route. simpl. fold read.
  by destruct (w now read).
Qed.

(* ===================================================================== *)
(** ** Values read from the environment *)
(* ===================================================================== *)

Lemma split_not_nil sep s : split sep s <> [].
Proof.
  destruct s as [|c rest]; simpl; [done|].
  destruct (Ascii.eqb c sep); [done|]. by destruct (split sep rest).
Qed.

Lemma concat_cons_cons sep x y ys :
  String.concat sep (x :: y :: ys)
  = (x +:+ sep +:+ String.concat sep (y :: ys))%string.
Proof. done. Qed.

(** Joining the pieces with the separator gives the string back. *)
Lemma split_join sep s :
  String.concat (String sep EmptyString) (split sep s) = s.
Proof.
  induction s as [|c rest IH]; [done|]. simpl.
  destruct (Ascii.eqb c sep) eqn:Ec.
  - apply Ascii.eqb_eq in Ec as ->.
    destruct (split sep rest) as [|y ys] eqn:E;
      [by destruct (split_not_nil sep rest)|].
    rewrite concat_cons_cons, IH. done.
  - destruct (split sep rest) as [|y ys] eqn:E;
      [by destruct (split_not_nil sep rest)|].
    destruct ys as [|z zs].
    + simpl in *. by rewrite IH.
    + rewrite concat_cons_cons. rewrite concat_cons_cons in IH.
      rewrite <- IH. reflexivity.
Qed.

(** No piece contains the separator. *)
Lemma split_pieces sep s :
  Forall (fun piece => has_char sep piece = false) (split sep s).
Proof.
  induction s as [|c rest IH]; simpl; [by repeat constructor|].
  destruct (Ascii.eqb c sep) eqn:Ec; [by constructor|].
  destruct (split sep rest) as [|y ys].
  - constructor; [|constructor]. simpl. by rewrite Ec.
  - inversion IH as [|? ? Hy Hys]; subst.
    constructor; [|done]. simpl. by rewrite Ec.
Qed.

(** X16. When [CORS_ALLOWED_ORIGINS] is set and not empty, the allowed
    origins of [config] and the [origin] option of [app.js] are the same
    list: the pieces of the variable between its commas, in order, empty
    pieces included and nothing trimmed, so that joining them with commas
    gives the variable back and no piece contains a comma.  When it is
    unset or empty the two differ: [config] falls back to its two default
    origins and [app.js] to ["*"]. *)
Theorem cors_origins_are_the_pieces (env : gmap string string) :
  (forall s, env !! "CORS_ALLOWED_ORIGINS" = Some s -> s <> EmptyString ->
     App.cors_origin env = VArr (map VStr (Config.allowedOrigins env)) /\
     String.concat "," (Config.allowedOrigins env) = s /\
     Forall (fun piece => has_char ","%char piece = false)
       (Config.allowedOrigins env) /\
     Config.allowedOrigins env <> []) /\
  (truthy (Config.getenv env "CORS_ALLOWED_ORIGINS") = false ->
     App.cors_origin env = VStr "*" /\
     Config.allowedOrigins env
     = ["http://localhost:3000"; "https://immuno-warriors.com"]).
Proof.
  unfold App.cors_origin, Config.allowedOrigins, Config.getenv.
  split.
  - intros s -> Hs.
    assert (truthy (VStr s) = true) as -> by (by destruct s).
    repeat split.
    + apply split_join.
    + apply split_pieces.
    + apply split_not_nil.
  - destruct (env !! "CORS_ALLOWED_ORIGINS") as [s|]; simpl; [|done].
    intros Hs. unfold truthy. by rewrite Hs.
Qed.

Lemma cors_origins_are_the_pieces_witness :
  let env : gmap string string :=
    <["CORS_ALLOWED_ORIGINS" := "https://a.example, https://b.example,"]>
      Sample.env_complete in
  env !! "CORS_ALLOWED_ORIGINS"
  = Some "https://a.example, https://b.example," /\
  Config.allowedOrigins env
  = ["https://a.example"; " https://b.example"; ""] /\
  String.concat "," (Config.allowedOrigins env)
  = "https://a.example, https://b.example," /\
  truthy (Config.getenv Sample.env_complete "CORS_ALLOWED_ORIGINS") = false /\
  App.cors_origin Sample.env_complete = VStr "*".
Proof.
  intros env.
  assert (env !! "CORS_ALLOWED_ORIGINS"
          = Some "https://a.example, https://b.example,") as H
    by (vm_compute; reflexivity).
  split; [exact H|]. split; [vm_compute; reflexivity|].
  destruct (cors_origins_are_the_pieces env) as [Hset _].
  destruct (Hset _ H) as (_ & Hjoin & _); [discriminate|].
  split; [exact Hjoin|].
  assert (truthy (Config.getenv Sample.env_complete "CORS_ALLOWED_ORIGINS")
          = false) as H' by (vm_compute; reflexivity).
  split; [exact H'|].
  destruct (cors_origins_are_the_pieces Sample.env_complete) as [_ Hunset].
  apply (Hunset H').
Defined.

(** X17. When neither [RENDER_EXTERNAL_URL] nor [PORT] is set (or both are
    empty), a shutdown whose update of [status/api_status] succeeds
    publishes the address ["http://localhost:undefined"] to [config/api]
    (when [PORT] is empty, ["http://localhost:"]): the listener interpolates
    [process.env.PORT] without the default that [startServer] applies. *)
Theorem shutdown_publishes_localhost_undefined
    (env : gmap string string) (w : world) (now : nat)
    (s : Process.signal) (v : value) :
  truthy (Config.getenv env "RENDER_EXTERNAL_URL") = false ->
  truthy (Config.getenv env "PORT") = false ->
  w now (DocUpdate "status" "api_status"
           [("last_stopped", VServerTimestamp);
            ("message", VStr "API stopped")]) = Resolved v ->
  let x := exec w now (Process.listener env s false) in
  let port_text := match env !! "PORT" with
                   | Some _ => EmptyString
                   | None => "undefined"
                   end in
  In (ECall (DocSet "config" "api"
               [("baseUrl", VStr ("http://localhost:" +:+ port_text));
                ("status", VStr "stopped");
                ("environment", App.environment env);
                ("lastUpdated", VServerTimestamp)] true)) (trace x) /\
  js_or (Config.getenv env "PORT") (VNum 4000) = VNum 4000.
Proof.
  intros Hurl Hport Hw x port_text. subst x port_text.
  split.
  - destruct (shutdown_run env w now s) as (g & _ & _ & Htrace).
    rewrite Hw in Htrace. destruct Htrace as [l ->].
    unfold App.shutdown_url, js_or. rewrite Hurl.
    unfold Config.getenv in *.
    destruct (env !! "PORT") as [port|]; simpl in *.
    + destruct port; [|discriminate Hport]. simpl. auto.
    + auto.
  - unfold js_or. by rewrite Hport.
Qed.

Lemma shutdown_publishes_localhost_undefined_witness :
  let env := Sample.env_without_port in
  let x := exec Sample.store_up 0
             (Process.listener env Process.SIGTERM false) in
  truthy (Config.getenv env "RENDER_EXTERNAL_URL") = false /\
  truthy (Config.getenv env "PORT") = false /\
  In (ECall (DocSet "config" "api"
               [("baseUrl", VStr "http://localhost:undefined");
                ("status", VStr "stopped");
                ("environment", App.environment env);
                ("lastUpdated", VServerTimestamp)] true)) (trace x).
Proof.
  intros env x.
  assert (truthy (Config.getenv env "RENDER_EXTERNAL_URL") = false) as H1
    by (vm_compute; reflexivity).
  assert (truthy (Config.getenv env "PORT") = false) as H2
    by (vm_compute; reflexivity).
  split; [exact H1|]. split; [exact H2|].
  apply (shutdown_publishes_localhost_undefined
           env Sample.store_up 0 Process.SIGTERM VUndefined H1 H2 eq_refl).
Defined.

(** X18. The two defaults for [NODE_ENV] disagree.  When the variable is
    set and not empty, [config.nodeEnv] (logged by [initializeFirebase]) and
    the [environment] that [app.js] writes to the status documents are both
    its value; when it is unset or empty the first is ["development"] and
    the second ["production"]. *)
Theorem node_env_defaults_disagree (env : gmap string string) :
  (forall s, env !! "NODE_ENV" = Some s -> s <> EmptyString ->
     Config.nodeEnv env = VStr s /\ App.environment env = VStr s) /\
  (truthy (Config.getenv env "NODE_ENV") = false ->
     Config.nodeEnv env = VStr "development" /\
     App.environment env = VStr "production" /\
     Config.nodeEnv env <> App.environment env).
Proof.
  unfold Config.nodeEnv, App.environment, js_or, Config.getenv. split.
  - intros s -> Hs. simpl.
    assert (negb (String.eqb s "") = true) as -> by (by destruct s). done.
  - intros ->. done.
Qed.

Lemma node_env_defaults_disagree_witness :
  truthy (Config.getenv Sample.env_complete "NODE_ENV") = false /\
  Config.nodeEnv Sample.env_complete = VStr "development" /\
  App.environment Sample.env_complete = VStr "production".
Proof.
  assert (truthy (Config.getenv Sample.env_complete "NODE_ENV") = false)
    as H by (vm_compute; reflexivity).
  split; [exact H|].
  destruct (node_env_defaults_disagree Sample.env_complete) as [_ Hunset].
  destruct (Hunset H) as (H1 & H2 & _). by split.
Defined.

(** X19. [verifyConnection()] writes [lastChecked] and
    [status = "connected"] to [status/connection_test] once.  When the write
    succeeds it logs and returns nothing; when it is rejected it logs the
    store's error and throws an error with status code 500 and the message
    ["Impossible de se connecter à Firestore"] that carries the message of
    the store's error. *)
Theorem verifyConnection_wraps_failure (w : world) (now : nat) :
  let probe := DocSet "status" "connection_test"
                 [("lastChecked", VServerTimestamp);
                  ("status", VStr "connected")] false in
  let x := exec w now FirebaseService.verifyConnection in
  finish x = now /\
  match w now probe with
  | Resolved _ =>
      final x = Returned VUndefined /\
      trace x = [ECall probe; EDo (Log Info "Connexion Firestore vérifiée" [])]
  | Rejected e =>
      final x
      = Thrown (VErr (new_AppError 500
                        "Impossible de se connecter à Firestore"
                        (VStr (err_message e)))) /\
      trace x
      = [ECall probe;
         EDo (Log Error
                "Échec de la vérification de la connexion Firestore"
                [("error", VStr (err_message e));
                 ("stack", VStr (err_stack e))])]
  end.
Proof.
  intros probe x. subst x. unfold FirebaseService.verifyConnection. simpl.
  fold probe. by destruct (w now probe).
Qed.
